(** * cli/configssh.go: the [config-ssh] command

    A shallow embedding of [configSSH]: the excision of a previously
    written block from the SSH config text, the rendering of one [Host]
    stanza per workspace agent, the merge of the stanzas that the
    per-workspace goroutines append under the mutex, and the final write.

    Go strings are byte sequences: they are lists of 8-bit characters here.
    Go [int]s are [Z]; the only integers of the program are string lengths
    and offsets, far from the 64-bit bounds. *)

From Stdlib Require Import ZArith Lia List Ascii String Bool.
From stdpp Require Import base list gmap strings.

Local Open Scope Z_scope.

(** ** Strings *)

Definition gostring := list ascii.

(** A literal of the source. *)
Definition str (s : string) : gostring := list_ascii_of_string s.

Definition len (s : gostring) : Z := Z.of_nat (length s).

(** The escapes of the source's literals. *)
Definition tab : gostring := ["009"%char].
Definition nl : gostring := ["010"%char].
Definition dquote : gostring := ["034"%char].

(** [strings.HasPrefix(s, prefix)] *)
Fixpoint HasPrefix (s prefix : gostring) {struct prefix} : bool :=
  match prefix, s with
  | [], _ => true
  | _ :: _, [] => false
  | p :: prefix', c :: s' => Ascii.eqb c p && HasPrefix s' prefix'
  end.

(** [strings.Index(s, substr)]: the offset of the first instance of
    [substr] in [s], or [-1] when there is none. *)
Fixpoint Index (s substr : gostring) : Z :=
  if HasPrefix s substr then 0
  else match s with
       | [] => -1
       | _ :: s' => let i := Index s' substr in
                    if i =? -1 then -1 else i + 1
       end.

(** [strings.Join(elems, sep)] *)
Fixpoint Join (elems : list gostring) (sep : gostring) : gostring :=
  match elems with
  | [] => []
  | [e] => e
  | e :: rest => e ++ sep ++ Join rest sep
  end.

(** The slice expressions [s[:hi]] and [s[lo:]].  Go panics (slice bounds
    out of range) when the bound is negative or beyond [len(s)]: [None]. *)
Definition slice_to (s : gostring) (hi : Z) : option gostring :=
  if (hi <? 0) || (len s <? hi) then None else Some (take (Z.to_nat hi) s).

Definition slice_from (s : gostring) (lo : Z) : option gostring :=
  if (lo <? 0) || (len s <? lo) then None else Some (drop (Z.to_nat lo) s).

(** ** The constants of the file *)

Definition sshStartToken : gostring := str "# ------------START-CODER-----------".

Definition sshStartMessage : gostring :=
  str "# This was generated by " ++ dquote ++ str "coder config-ssh" ++ dquote ++ str "." ++ nl ++
  str "#" ++ nl ++
  str "# To remove this blob, run:" ++ nl ++
  str "#" ++ nl ++
  str "#    coder config-ssh --remove" ++ nl ++
  str "#" ++ nl ++
  str "# You should not hand-edit this section, unless you are deleting it.".

Definition sshEndToken : gostring := str "# ------------END-CODER------------".

(** ** Removal of the previous block (configSSH, lines 56-60)

<<
  startIndex := strings.Index(sshConfigContent, sshStartToken)
  endIndex := strings.Index(sshConfigContent, sshEndToken)
  if startIndex != -1 && endIndex != -1 {
    sshConfigContent = sshConfigContent[:startIndex-1] + sshConfigContent[endIndex+len(sshEndToken):]
  }
>>
    The result is the new value of [sshConfigContent], or [None] when one
    of the slice expressions panics. *)
Definition excise (sshConfigContent : gostring) : option gostring :=
  let startIndex := Index sshConfigContent sshStartToken in
  let endIndex := Index sshConfigContent sshEndToken in
  if negb (startIndex =? -1) && negb (endIndex =? -1) then
    match slice_to sshConfigContent (startIndex - 1) with
    | None => None
    | Some before =>
        match slice_from sshConfigContent (endIndex + len sshEndToken) with
        | None => None
        | Some after => Some (before ++ after)
        end
    end
  else Some sshConfigContent.

(** ** Results of the calls the command makes *)

Definition error := gostring.

(** A Go [(value, error)] pair. *)
Inductive result (A : Type) : Type :=
| Ok (a : A)
| Err (e : error).
Arguments Ok {A} a.
Arguments Err {A} e.

(** How [RunE] ends: it returns [nil] or an error, or it panics. *)
Inductive outcome : Type :=
| Returned (err : option error)
| Panicked.

(** ** The data the command reads from the service

    Only the fields [configSSH] reads are kept.  Identifiers are UUIDs and
    are only passed on. *)

Definition UUID := N.

Record WorkspaceAgent := { AgentName : gostring }.

Record WorkspaceResource := {
  Transition : gostring;
  Agents : list WorkspaceAgent }.

Record Workspace := {
  Name : gostring;
  LatestBuild_TemplateVersionID : UUID }.

Record Organization := { ID : UUID }.

(** Modelled from the spec: the constant [database.WorkspaceTransitionStart]
    is declared in package [database], outside this file; the spec names
    the transition "start". *)
Definition WorkspaceTransitionStart : gostring := str "start".

(** [codersdk.Client], as far as [configSSH] calls it. *)
Record Client := {
  WorkspacesByOwner : UUID -> result (list Workspace);
  TemplateVersionResources : UUID -> result (list WorkspaceResource) }.

(** What the command takes from the process and from the packages it
    calls: the helpers of package [cli] defined in other files
    ([createClient], [currentOrganization], [createConfig]), the result of
    [currentBinPath], [os.UserHomeDir], [filepath.Join], [filepath.Dir] and
    the [%q] verb of [fmt] ([Quote]). *)
Record Env := {
  createClient : result Client;
  currentOrganization : Client -> result Organization;
  UserHomeDir : gostring;
  filepath_Join : gostring -> gostring -> gostring;
  filepath_Dir : gostring -> gostring;
  currentBinPath : result gostring;
  createConfig : gostring;
  Quote : gostring -> gostring }.

(** The flags of the command. *)
Record Flags := {
  sshConfigFile : gostring;
  sshOptions : list gostring;
  skipProxyCommand : bool }.

(** ** The file system

    [os.ReadFile] returns the bytes it could read and an error;
    [os.MkdirAll] and [os.WriteFile] change the file system and return an
    error or [nil].  The one law the command relies on: a write that
    returned [nil] is read back. *)
Class FileSystem (FS : Type) := {
  ReadFile : gostring -> FS -> gostring * option error;
  MkdirAll : gostring -> FS -> FS * option error;
  WriteFile : gostring -> gostring -> FS -> FS * option error;
  ReadFile_WriteFile : forall name data fs fs',
    WriteFile name data fs = (fs', None) -> ReadFile name fs' = (data, None) }.

(** ** One stanza (configSSH, lines 92-116) *)

(** Lines 92-95: the name after [coder.]. *)
Definition hostname (workspace : Workspace) (resource : WorkspaceResource)
    (agent : WorkspaceAgent) : gostring :=
  if 1 <? Z.of_nat (length (Agents resource))
  then Name workspace ++ str "." ++ AgentName agent
  else Name workspace.

(** Lines 96-115: the slice [configOptions], built by the same appends. *)
Definition configOptions (env : Env) (flags : Flags) (binaryFile root hostname : gostring)
    : list gostring :=
  let configOptions := [str "Host coder." ++ hostname] in
  let configOptions :=
    fold_left (fun configOptions option => configOptions ++ [tab ++ option])
              (sshOptions flags) configOptions in
  let configOptions := configOptions ++
    [ tab ++ str "HostName coder." ++ hostname;
      tab ++ str "ConnectTimeout=0";
      tab ++ str "StrictHostKeyChecking=no";
      tab ++ str "UserKnownHostsFile=/dev/null";
      tab ++ str "LogLevel ERROR" ] in
  if negb (skipProxyCommand flags)
  then configOptions ++
         [ tab ++ str "ProxyCommand " ++ Quote env binaryFile ++ str " --global-config "
               ++ Quote env root ++ str " ssh --stdio " ++ hostname ]
  else configOptions.

(** Line 116: what one agent appends to [sshConfigContent]. *)
Definition stanza (env : Env) (flags : Flags) (binaryFile root : gostring)
    (workspace : Workspace) (resource : WorkspaceResource) (agent : WorkspaceAgent) : gostring :=
  Join (configOptions env flags binaryFile root (hostname workspace resource agent)) nl ++ nl.

(** Lines 86-119: the appends of one resource, in order; none unless its
    transition is [WorkspaceTransitionStart]. *)
Definition resourceStanzas (env : Env) (flags : Flags) (binaryFile root : gostring)
    (workspace : Workspace) (resource : WorkspaceResource) : list gostring :=
  if bool_decide (Transition resource <> WorkspaceTransitionStart) then []
  else map (stanza env flags binaryFile root workspace resource) (Agents resource).

(** Lines 81-121: the goroutine of one workspace.  It fails before its
    first append, or makes its appends in order, each under the mutex. *)
Definition goroutine (env : Env) (flags : Flags) (client : Client) (binaryFile root : gostring)
    (workspace : Workspace) : result (list gostring) :=
  match TemplateVersionResources client (LatestBuild_TemplateVersionID workspace) with
  | Err e => Err e
  | Ok resources => Ok (flat_map (resourceStanzas env flags binaryFile root workspace) resources)
  end.

(** ** The goroutines together (lines 77-126)

    The mutex makes every append atomic, and the order of the appends of
    different goroutines is the scheduler's.  A schedule is the list of the
    goroutines that take the next step, one after the other: a step of a
    goroutine that failed reports its error (the group keeps the first), a
    step of a goroutine with appends left makes the next one.
    [errGroup.Wait] returns when all are done: once the schedule is used
    up, the goroutines left finish one after the other. *)

Definition keepFirst (err : option error) (e : error) : option error :=
  match err with
  | None => Some e
  | Some _ => err
  end.

Fixpoint drain (tasks : list (result (list gostring))) (sshConfigContent : gostring)
    (err : option error) : gostring * option error :=
  match tasks with
  | [] => (sshConfigContent, err)
  | Err e :: tasks' => drain tasks' sshConfigContent (keepFirst err e)
  | Ok appends :: tasks' => drain tasks' (sshConfigContent ++ concat appends) err
  end.

Fixpoint errGroup (schedule : list nat) (tasks : list (result (list gostring)))
    (sshConfigContent : gostring) (err : option error) : gostring * option error :=
  match schedule with
  | [] => drain tasks sshConfigContent err
  | i :: schedule' =>
      match tasks !! i with
      | Some (Err e) =>
          errGroup schedule' (<[i := Ok []]> tasks) sshConfigContent (keepFirst err e)
      | Some (Ok (text :: appends)) =>
          errGroup schedule' (<[i := Ok appends]> tasks) (sshConfigContent ++ text) err
      | _ => errGroup schedule' tasks sshConfigContent err
      end
  end.

(** ** The command (configSSH, [RunE], lines 40-140)

    The messages printed at the end are not part of the model. *)

(** Lines 49-52. *)
Definition configPath (env : Env) (flags : Flags) : gostring :=
  if HasPrefix (sshConfigFile flags) (str "~/")
  then filepath_Join env (UserHomeDir env) (drop 2 (sshConfigFile flags))
  else sshConfigFile flags.

(** Line 76. *)
Definition header : gostring :=
  nl ++ sshStartToken ++ nl ++ sshStartMessage ++ nl ++ nl.

Definition noWorkspaces : error := str "You don't have any workspaces!".

Definition RunE {FS : Type} `{FileSystem FS} (env : Env) (flags : Flags)
    (schedule : list nat) (fs : FS) : outcome * FS :=
  match createClient env with
  | Err err => (Returned (Some err), fs)
  | Ok client =>
  match currentOrganization env client with
  | Err err => (Returned (Some err), fs)
  | Ok organization =>
  let sshConfigFile := configPath env flags in
  let sshConfigContent := fst (ReadFile sshConfigFile fs) in
  match excise sshConfigContent with
  | None => (Panicked, fs)
  | Some sshConfigContent =>
  match WorkspacesByOwner client (ID organization) with
  | Err err => (Returned (Some err), fs)
  | Ok workspaces =>
  if Z.of_nat (length workspaces) =? 0 then (Returned (Some noWorkspaces), fs) else
  match currentBinPath env with
  | Err err => (Returned (Some err), fs)
  | Ok binaryFile =>
  let root := createConfig env in
  let sshConfigContent := sshConfigContent ++ header in
  let tasks := map (goroutine env flags client binaryFile root) workspaces in
  match errGroup schedule tasks sshConfigContent None with
  | (_, Some err) => (Returned (Some err), fs)
  | (sshConfigContent, None) =>
  let sshConfigContent := sshConfigContent ++ nl ++ sshEndToken in
  match MkdirAll (filepath_Dir env sshConfigFile) fs with
  | (fs, Some err) => (Returned (Some err), fs)
  | (fs, None) =>
  match WriteFile sshConfigFile sshConfigContent fs with
  | (fs, Some err) => (Returned (Some err), fs)
  | (fs, None) => (Returned None, fs)
  end end end end end end end end.

(** * Notions used to state the properties *)

(** The number of offsets of [s] at which an instance of [tok] starts. *)
Fixpoint occurrences (s tok : gostring) : nat :=
  ((if HasPrefix s tok then 1 else 0) +
   match s with
   | [] => 0
   | _ :: s' => occurrences s' tok
   end)%nat.

(** The removal as the specification words it: the span runs from one
    character before the start marker through the character immediately
    after the end marker, both included. *)
Definition excised_as_specified (s : gostring) : gostring :=
  let startIndex := Index s sshStartToken in
  let endIndex := Index s sshEndToken in
  take (Z.to_nat (startIndex - 1)) s ++ drop (Z.to_nat (endIndex + len sshEndToken + 1)) s.

Definition excise_as_specified (s : gostring) : Prop :=
  (Index s sshStartToken <> -1 /\ Index s sshEndToken <> -1 ->
   excise s = Some (excised_as_specified s)) /\
  (Index s sshStartToken = -1 \/ Index s sshEndToken = -1 -> excise s = Some s).

(** The alias of a stanza: what follows [Host ] on its first line and
    [HostName ] on the line after the extra options. *)
Definition hostAlias (workspace : Workspace) (resource : WorkspaceResource)
    (agent : WorkspaceAgent) : gostring :=
  str "coder." ++ hostname workspace resource agent.

(** The (workspace name, agent name) pairs for which the loops of lines
    79-118 append a stanza, each with its alias. *)
Definition resourceAliases (workspace : Workspace) (resource : WorkspaceResource)
    : list ((gostring * gostring) * gostring) :=
  if bool_decide (Transition resource <> WorkspaceTransitionStart) then []
  else map (fun agent => ((Name workspace, AgentName agent), hostAlias workspace resource agent))
           (Agents resource).

Definition runAliases (client : Client) (workspaces : list Workspace)
    : list ((gostring * gostring) * gostring) :=
  flat_map (fun workspace =>
              match TemplateVersionResources client (LatestBuild_TemplateVersionID workspace) with
              | Err _ => []
              | Ok resources => flat_map (resourceAliases workspace) resources
              end) workspaces.

(** Distinct (workspace, agent) pairs have distinct aliases. *)
Definition aliases_distinct (l : list ((gostring * gostring) * gostring)) : Prop :=
  forall x y, x ∈ l -> y ∈ l -> x.1 <> y.1 -> x.2 <> y.2.

(** A line that sets [ProxyCommand] the way the command writes it. *)
Definition isProxyCommandLine (line : gostring) : bool :=
  HasPrefix line (tab ++ str "ProxyCommand ").

Definition proxyCommandLines (lines : list gostring) : nat :=
  length (List.filter isProxyCommandLine lines).

(** The goroutines of a run and the text they append to an empty buffer. *)
Definition tasksOf (env : Env) (flags : Flags) (client : Client) (binaryFile : gostring)
    (workspaces : list Workspace) : list (result (list gostring)) :=
  map (goroutine env flags client binaryFile (createConfig env)) workspaces.

Definition stanzasText (env : Env) (flags : Flags) (client : Client) (binaryFile : gostring)
    (workspaces : list Workspace) (schedule : list nat) : gostring :=
  (errGroup schedule (tasksOf env flags client binaryFile workspaces) [] None).1.

(** * Data for the examples *)

(** [%q] applied to a string of printable ASCII characters other than the
    double quote and the backslash: the string between double quotes. *)
Definition quotePlain (s : gostring) : gostring := dquote ++ s ++ dquote.

(** The directory of a slash-separated path: what precedes the last slash. *)
Fixpoint beforeLastSlash (path : gostring) : option gostring :=
  match path with
  | [] => None
  | c :: rest =>
      match beforeLastSlash rest with
      | Some dir => Some (c :: dir)
      | None => if Ascii.eqb c "/" then Some [] else None
      end
  end.

Definition dirOf (path : gostring) : gostring :=
  match beforeLastSlash path with
  | Some dir => dir
  | None => str "."
  end.

Definition exampleEnv (client : Client) : Env := {|
  createClient := Ok client;
  currentOrganization := fun _ => Ok {| ID := 7%N |};
  UserHomeDir := str "/home/u";
  filepath_Join := fun dir name => dir ++ str "/" ++ name;
  filepath_Dir := dirOf;
  currentBinPath := Ok (str "/usr/local/bin/coder");
  createConfig := str "/home/u/.coder";
  Quote := quotePlain |}.

Definition startResource (agents : list gostring) : WorkspaceResource :=
  {| Transition := WorkspaceTransitionStart; Agents := map Build_WorkspaceAgent agents |}.

Definition dev : Workspace := {| Name := str "dev"; LatestBuild_TemplateVersionID := 1%N |}.
Definition web : Workspace := {| Name := str "web"; LatestBuild_TemplateVersionID := 2%N |}.

(** One workspace [dev]; its start resource has the single agent [main]. *)
Definition devClient : Client := {|
  WorkspacesByOwner := fun _ => Ok [dev];
  TemplateVersionResources := fun _ => Ok [startResource [str "main"]] |}.

(** Two workspaces, each with a single-agent start resource. *)
Definition twoClient : Client := {|
  WorkspacesByOwner := fun _ => Ok [dev; web];
  TemplateVersionResources := fun _ => Ok [startResource [str "main"]] |}.

(** One workspace [dev] with two start resources of one agent each. *)
Definition twoResourcesClient : Client := {|
  WorkspacesByOwner := fun _ => Ok [dev];
  TemplateVersionResources := fun _ =>
    Ok [startResource [str "main"]; startResource [str "db"]] |}.

(** No workspace. *)
Definition emptyClient : Client := {|
  WorkspacesByOwner := fun _ => Ok [];
  TemplateVersionResources := fun _ => Ok [] |}.

Definition exampleFlags (options : list gostring) (skip : bool) : Flags := {|
  sshConfigFile := str "~/.ssh/config";
  sshOptions := options;
  skipProxyCommand := skip |}.

(** A file system in memory: the files by name and the directories made.
    A directory is not made over a file, and a file is not written over a
    directory. *)
Record MemFS := {
  files : gmap (list ascii) (list ascii);
  dirs : gset (list ascii) }.

Definition memReadFile (name : gostring) (fs : MemFS) : gostring * option error :=
  match files fs !! name with
  | Some data => (data, None)
  | None => ([], Some (str "open: no such file or directory"))
  end.

Definition memMkdirAll (path : gostring) (fs : MemFS) : MemFS * option error :=
  match files fs !! path with
  | Some _ => (fs, Some (str "mkdir: not a directory"))
  | None => ({| files := files fs; dirs := {[ path ]} ∪ dirs fs |}, None)
  end.

Definition memWriteFile (name data : gostring) (fs : MemFS) : MemFS * option error :=
  if bool_decide (name ∈ dirs fs) then (fs, Some (str "open: is a directory"))
  else ({| files := <[ name := data ]> (files fs); dirs := dirs fs |}, None).

#[export] Program Instance MemFS_FileSystem : FileSystem MemFS := {|
  ReadFile := memReadFile;
  MkdirAll := memMkdirAll;
  WriteFile := memWriteFile |}.
Next Obligation.
  intros name data fs fs'. unfold memWriteFile, memReadFile.
  case_bool_decide; [done|]. intros [= <-]. simpl.
  by rewrite lookup_insert_eq.
Qed.

Definition emptyFS : MemFS := {| files := ∅; dirs := ∅ |}.

Definition fileFS (name data : gostring) : MemFS := {| files := {[ name := data ]}; dirs := ∅ |}.

(** * The path of the binary (currentBinPath, lines 150-189)

    The function asks the process for its executable, looks its base name
    up in [$PATH] and warns on the command's output when the two disagree.
    [os.Executable], [filepath.Base], [safeexec.LookPath] (which returns a
    path and an error), [runtime.GOOS], [filepath.Clean] and the [%q] verb
    are the process's; one call of [cliui.Warn] is kept as its title and its
    lines.  The field [currentBinPath] of [Env] is the result of this
    function. *)
Module BinPath.

Record Process := {
  os_Executable : result gostring;
  filepath_Base : gostring -> gostring;
  safeexec_LookPath : gostring -> gostring * option error;
  runtime_GOOS : gostring;
  filepath_Clean : gostring -> gostring;
  fmt_Quote : gostring -> gostring }.

Record Warning := {
  title : gostring;
  lines : list gostring }.

Definition notInPath (proc : Process) (binName : gostring) : Warning := {|
  title := str "The current executable is not in $PATH.";
  lines :=
    [ str "This may lead to problems connecting to your workspace via SSH.";
      str "Please move " ++ fmt_Quote proc binName
        ++ str " to a location in your $PATH (such as System32) and run `"
        ++ binName ++ str " config-ssh` again." ] |}.

Definition pathMismatch (proc : Process) (exePath pathPath : gostring) : Warning := {|
  title := str "The current executable path does not match the executable path found in $PATH.";
  lines :=
    [ str "This may cause issues connecting to your workspace via SSH.";
      tab ++ str "Current executable path: " ++ fmt_Quote proc exePath;
      tab ++ str "Executable path in $PATH: " ++ fmt_Quote proc pathPath ] |}.

(** The returned pair and the warnings printed, in order. *)
Definition currentBinPath (proc : Process) : result gostring * list Warning :=
  match os_Executable proc with
  | Err err => (Err (str "get executable path: " ++ err), [])
  | Ok exePath =>
      let binName := filepath_Base proc exePath in
      let '(pathPath, err) := safeexec_LookPath proc binName in
      if bool_decide (err <> None) && bool_decide (runtime_GOOS proc = str "windows")
      then (Ok exePath, [notInPath proc binName])
      else if bool_decide (filepath_Clean proc pathPath <> filepath_Clean proc exePath)
           then (Ok binName, [pathMismatch proc exePath pathPath])
           else (Ok binName, [])
  end.

(** A process for the examples: the executable is [/usr/local/bin/coder],
    names are looked up in the one directory [dir], and paths are clean. *)
Definition exampleProcess (goos dir : gostring) (found : bool) : Process := {|
  os_Executable := Ok (str "/usr/local/bin/coder");
  filepath_Base := fun path => drop (length (dirOf path) + 1) path;
  safeexec_LookPath := fun name =>
    if found then (dir ++ str "/" ++ name, None)
    else ([], Some (str "executable file not found in $PATH"));
  runtime_GOOS := goos;
  filepath_Clean := fun path => path;
  fmt_Quote := quotePlain |}.

End BinPath.

(** * More notions used to state the properties *)

(** What a goroutine appends, and what all of them append. *)
Definition appendsOf (task : result (list gostring)) : list gostring :=
  match task with
  | Ok appends => appends
  | Err _ => []
  end.

Definition allAppends (tasks : list (result (list gostring))) : list gostring :=
  flat_map appendsOf tasks.

(** The number of agents of the start resources. *)
Definition startAgents (resources : list WorkspaceResource) : nat :=
  sum_list (map (fun resource =>
                   if bool_decide (Transition resource = WorkspaceTransitionStart)
                   then length (Agents resource) else 0%nat) resources).

(** A client that serves the resources by template version. *)
Definition tableClient (workspaces : list Workspace)
    (resources : UUID -> result (list WorkspaceResource)) : Client := {|
  WorkspacesByOwner := fun _ => Ok workspaces;
  TemplateVersionResources := resources |}.

(** * Facts about the string functions *)

(** Closed decidable facts, by evaluation of the decision procedure. *)
Ltac by_decide := apply (bool_decide_unpack _); vm_compute; exact I.

Section StringFacts.

Implicit Types s tok a b y : gostring.

#[local] Arguments Ascii.eqb : simpl never.

Lemma HasPrefix_nil s : HasPrefix s [] = true.
Proof. by destruct s. Qed.

Lemma HasPrefix_true_iff s tok : HasPrefix s tok = true <-> exists k, s = tok ++ k.
Proof.
  revert s; induction tok as [|p tok IH]; intros s; simpl.
  - split; [intros _; by exists s | done].
  - destruct s as [|c s].
    + split; [done | intros [k Hk]; discriminate].
    + rewrite andb_true_iff, IH, Ascii.eqb_eq. split.
      * intros [-> [k ->]]. by exists k.
      * intros [k Hk]. injection Hk as -> ->. eauto.
Qed.

Lemma HasPrefix_app tok k : HasPrefix (tok ++ k) tok = true.
Proof. apply HasPrefix_true_iff. by exists k. Qed.

Lemma HasPrefix_length s tok :
  HasPrefix s tok = true -> (length tok <= length s)%nat.
Proof.
  intros [k ->]%HasPrefix_true_iff. rewrite length_app. lia.
Qed.

(** A prefix no longer than [a] is decided inside [a]. *)
Lemma HasPrefix_app_long a y tok :
  (length tok <= length a)%nat -> HasPrefix (a ++ y) tok = HasPrefix a tok.
Proof.
  revert a; induction tok as [|p tok IH]; intros [|c a] Hlen; simpl in *; try done; try lia.
  rewrite IH; [done | lia].
Qed.

(** A token without a newline does not reach across one. *)
Lemma HasPrefix_before_nl a y tok :
  "010"%char ∉ tok -> HasPrefix (a ++ nl ++ y) tok = HasPrefix a tok.
Proof.
  revert tok; induction a as [|c a IH]; intros [|p tok] Hnl; simpl; try done.
  - destruct (Ascii.eqb_spec "010"%char p) as [<-|]; [|done].
    exfalso. apply Hnl. left.
  - rewrite IH; [done|]. intros Hin. apply Hnl. by right.
Qed.

Lemma Index_ge s tok : -1 <= Index s tok.
Proof.
  induction s as [|c s IH]; simpl.
  - destruct (HasPrefix [] tok); lia.
  - destruct (HasPrefix (c :: s) tok); [lia|].
    destruct (Z.eqb_spec (Index s tok) (-1)); lia.
Qed.

(** [Index] finds an instance, and no instance starts before it. *)
Lemma Index_found s tok (n : nat) :
  Index s tok = Z.of_nat n ->
  HasPrefix (drop n s) tok = true /\
  forall m, (m < n)%nat -> HasPrefix (drop m s) tok = false.
Proof.
  revert n; induction s as [|c s IH]; intros n; simpl.
  - destruct (HasPrefix [] tok) eqn:E; [|lia].
    intros Hn. assert (n = 0%nat) as -> by lia. split; [done | lia].
  - destruct (HasPrefix (c :: s) tok) eqn:E.
    + intros Hn. assert (n = 0%nat) as -> by lia. split; [done | lia].
    + destruct (Z.eqb_spec (Index s tok) (-1)) as [|Hne]; [lia|].
      intros Hn. destruct n as [|n]; [pose proof (Index_ge s tok); lia|].
      destruct (IH n) as [Hat Hbefore]; [lia|].
      split; [done|]. intros [|m] Hm; [done|]. apply Hbefore. lia.
Qed.

Lemma Index_none s tok :
  Index s tok = -1 -> forall n, HasPrefix (drop n s) tok = false.
Proof.
  induction s as [|c s IH]; simpl.
  - destruct (HasPrefix [] tok) eqn:E; [lia|]. intros _ n. by destruct n.
  - destruct (HasPrefix (c :: s) tok) eqn:E; [lia|].
    destruct (Z.eqb_spec (Index s tok) (-1)) as [Hs|]; [|pose proof (Index_ge s tok); lia].
    intros _ [|n]; [done|]. by apply IH.
Qed.

Lemma Index_first s tok (n : nat) :
  HasPrefix (drop n s) tok = true ->
  (forall m, (m < n)%nat -> HasPrefix (drop m s) tok = false) ->
  Index s tok = Z.of_nat n.
Proof.
  revert n; induction s as [|c s IH]; intros n Hat Hbefore; simpl.
  - destruct n as [|n]; simpl in Hat; [by rewrite Hat|].
    specialize (Hbefore 0%nat). simpl in Hbefore. rewrite Hbefore in Hat; [done | lia].
  - destruct n as [|n]; simpl in Hat; [by rewrite Hat|].
    pose proof (Hbefore 0%nat) as H0. simpl in H0. rewrite H0 by lia.
    rewrite (IH n Hat).
    + destruct (Z.eqb_spec (Z.of_nat n) (-1)); lia.
    + intros m Hm. apply (Hbefore (S m)). lia.
Qed.

Lemma Index_absent s tok :
  (forall n, HasPrefix (drop n s) tok = false) -> Index s tok = -1.
Proof.
  intros Hno. pose proof (Index_ge s tok).
  destruct (Z.eq_dec (Index s tok) (-1)) as [|Hne]; [done|].
  destruct (Index_found s tok (Z.to_nat (Index s tok))) as [Hat _]; [lia|].
  by rewrite Hno in Hat.
Qed.

(** An instance found lies inside the string. *)
Lemma Index_bound s tok (n : nat) :
  Index s tok = Z.of_nat n -> (n + length tok <= length s)%nat.
Proof.
  intros [Hat Hbefore]%Index_found.
  destruct (decide (n <= length s)%nat) as [Hle|Hgt].
  - apply HasPrefix_length in Hat. rewrite length_drop in Hat. lia.
  - (* beyond the end only the empty token matches, and it matches at 0 *)
    rewrite drop_ge in Hat by lia.
    destruct tok as [|p tok]; [|done].
    specialize (Hbefore 0%nat). rewrite HasPrefix_nil in Hbefore.
    assert (true = false) by (apply Hbefore; lia). done.
Qed.

End StringFacts.

(** * Facts about the removal of the previous block *)

Section Excise.

Implicit Types s t : gostring.

Lemma len_sshStartToken : length sshStartToken = 36%nat.
Proof. reflexivity. Qed.

Lemma len_sshEndToken : length sshEndToken = 35%nat.
Proof. reflexivity. Qed.

Lemma excise_absent s :
  Index s sshStartToken = -1 \/ Index s sshEndToken = -1 -> excise s = Some s.
Proof.
  intros H. unfold excise.
  destruct (Z.eqb_spec (Index s sshStartToken) (-1)); [done|].
  destruct (Z.eqb_spec (Index s sshEndToken) (-1)); [done|]. lia.
Qed.

(** With both markers found: the panic of [s[:-1]], or the two slices. *)
Lemma excise_both s (a b : nat) :
  Index s sshStartToken = Z.of_nat a -> Index s sshEndToken = Z.of_nat b ->
  excise s = if decide (a = 0%nat) then None
             else Some (take (a - 1) s ++ drop (b + 35) s).
Proof.
  intros Ha Hb. unfold excise. rewrite Ha, Hb.
  pose proof (Index_bound _ _ _ Ha) as Hla. pose proof (Index_bound _ _ _ Hb) as Hlb.
  rewrite len_sshStartToken in Hla. rewrite len_sshEndToken in Hlb.
  destruct (Z.eqb_spec (Z.of_nat a) (-1)); [lia|].
  destruct (Z.eqb_spec (Z.of_nat b) (-1)); [lia|]. simpl.
  unfold slice_to, slice_from, len. rewrite len_sshEndToken.
  destruct (decide (a = 0%nat)) as [->|Hne].
  - reflexivity.
  - destruct (Z.ltb_spec (Z.of_nat a - 1) 0); [lia|].
    destruct (Z.ltb_spec (Z.of_nat (length s)) (Z.of_nat a - 1)); [lia|].
    destruct (Z.ltb_spec (Z.of_nat b + Z.of_nat 35) 0); [lia|].
    destruct (Z.ltb_spec (Z.of_nat (length s)) (Z.of_nat b + Z.of_nat 35)); [lia|].
    simpl. do 3 f_equal; lia.
Qed.

(** An instance of one marker does not start inside an instance of the
    other: both begin with [#], which occurs nowhere else in them, and
    they differ. *)
Lemma end_not_in_start (d : nat) k :
  (d < 36)%nat -> HasPrefix (drop d sshStartToken ++ k) sshEndToken = false.
Proof.
  intros Hd. do 36 (destruct d as [|d]; [reflexivity|]). lia.
Qed.

Lemma start_not_in_end (d : nat) k :
  (d < 35)%nat -> HasPrefix (drop d sshEndToken ++ k) sshStartToken = false.
Proof.
  intros Hd. do 35 (destruct d as [|d]; [reflexivity|]). lia.
Qed.

Lemma markers_disjoint t (p q : nat) :
  HasPrefix (drop p t) sshStartToken = true ->
  HasPrefix (drop q t) sshEndToken = true ->
  (p + 36 <= q \/ q + 35 <= p)%nat.
Proof.
  intros Hp Hq.
  destruct (decide (p + 36 <= q)%nat); [by left|].
  destruct (decide (q + 35 <= p)%nat); [by right|]. exfalso.
  destruct (decide (p <= q)%nat).
  - apply HasPrefix_true_iff in Hp as [k Hk].
    replace q with (p + (q - p))%nat in Hq by lia.
    rewrite <- drop_drop, Hk, drop_app_le in Hq by (rewrite len_sshStartToken; lia).
    rewrite end_not_in_start in Hq by lia. done.
  - apply HasPrefix_true_iff in Hq as [k Hk].
    replace p with (q + (p - q))%nat in Hp by lia.
    rewrite <- drop_drop, Hk, drop_app_le in Hp by (rewrite len_sshEndToken; lia).
    rewrite start_not_in_end in Hp by lia. done.
Qed.

Lemma occurrences_pos s tok (n : nat) :
  (n <= length s)%nat -> HasPrefix (drop n s) tok = true -> (1 <= occurrences s tok)%nat.
Proof.
  revert n; induction s as [|c s IH]; intros [|n] Hn Hat; simpl in *; try lia.
  - rewrite Hat. lia.
  - rewrite Hat. lia.
  - specialize (IH n ltac:(lia) Hat). lia.
Qed.

Lemma occurrences_unique s tok (n m : nat) :
  (occurrences s tok <= 1)%nat -> (n <= length s)%nat -> (m <= length s)%nat ->
  HasPrefix (drop n s) tok = true -> HasPrefix (drop m s) tok = true -> n = m.
Proof.
  revert n m; induction s as [|c s IH]; intros n m Hocc Hn Hm Hatn Hatm.
  - simpl in *. lia.
  - cbn [occurrences] in Hocc.
    destruct n as [|n], m as [|m]; [done| | |].
    + simpl in Hatn, Hatm, Hm. rewrite Hatn in Hocc.
      pose proof (occurrences_pos s tok m ltac:(lia) Hatm). lia.
    + simpl in Hatn, Hatm, Hn. rewrite Hatm in Hocc.
      pose proof (occurrences_pos s tok n ltac:(lia) Hatn). lia.
    + simpl in Hatn, Hatm, Hn, Hm. f_equal. apply IH; [lia | lia | lia | done | done].
Qed.

(** Where an instance found in [x ++ y] comes from, unless it lies across
    the joint. *)
Lemma instance_left (x y tok : gostring) (p : nat) :
  (p + length tok <= length x)%nat ->
  HasPrefix (drop p (x ++ y)) tok = HasPrefix (drop p x) tok.
Proof.
  intros Hp. rewrite drop_app_le by lia.
  apply HasPrefix_app_long. rewrite length_drop. lia.
Qed.

Lemma instance_right (x y tok : gostring) (p : nat) :
  (length x <= p)%nat ->
  HasPrefix (drop p (x ++ y)) tok = HasPrefix (drop (p - length x) y) tok.
Proof. intros Hp. by rewrite drop_app_ge. Qed.

Lemma instance_in_take s tok (n p : nat) :
  HasPrefix (drop p (take n s)) tok = true -> HasPrefix (drop p s) tok = true.
Proof.
  intros Hat.
  destruct (decide (p <= length (take n s))%nat) as [Hle|Hgt].
  - rewrite <- (take_drop n s) at 1. rewrite drop_app_le by done.
    apply HasPrefix_true_iff in Hat as [k ->].
    rewrite <- app_assoc. apply HasPrefix_app.
  - rewrite drop_ge in Hat by lia.
    destruct tok; [apply HasPrefix_nil | done].
Qed.

(** After the removal of a block that was the only one, at most one of the
    markers is found: an instance left of the joint would have been found
    first, one right of it is a second instance, and two across the joint
    would overlap. *)
Lemma excise_output_clean s (a b : nat) :
  Index s sshStartToken = Z.of_nat a -> Index s sshEndToken = Z.of_nat b ->
  (1 <= a)%nat -> (a < b)%nat ->
  (occurrences s sshStartToken <= 1)%nat -> (occurrences s sshEndToken <= 1)%nat ->
  let t := take (a - 1) s ++ drop (b + 35) s in
  Index t sshStartToken = -1 \/ Index t sshEndToken = -1.
Proof.
  intros Ha Hb Ha1 Hab Hs1 He1 t.
  destruct (Z.eq_dec (Index t sshStartToken) (-1)) as [|Hps]; [by left|].
  destruct (Z.eq_dec (Index t sshEndToken) (-1)) as [|Hqe]; [by right|].
  exfalso.
  pose proof (Index_ge t sshStartToken). pose proof (Index_ge t sshEndToken).
  set (p := Z.to_nat (Index t sshStartToken)).
  set (q := Z.to_nat (Index t sshEndToken)).
  assert (Index t sshStartToken = Z.of_nat p) as Hp by lia.
  assert (Index t sshEndToken = Z.of_nat q) as Hq by lia.
  pose proof (Index_bound _ _ _ Ha) as Hla. rewrite len_sshStartToken in Hla.
  pose proof (Index_bound _ _ _ Hb) as Hlb. rewrite len_sshEndToken in Hlb.
  destruct (Index_found _ _ _ Ha) as [Hata Hbefa].
  destruct (Index_found _ _ _ Hb) as [Hatb Hbefb].
  destruct (Index_found _ _ _ Hp) as [Hatp _].
  destruct (Index_found _ _ _ Hq) as [Hatq _].
  assert (length (take (a - 1) s) = (a - 1)%nat) as Hlen
    by (rewrite length_take; lia).
  (* the start marker lies across the joint *)
  assert (p < a - 1 < p + 36)%nat as Hpx.
  { destruct (decide (p + 36 <= a - 1)%nat) as [Hl|Hl].
    - unfold t in Hatp. rewrite instance_left in Hatp
        by (rewrite len_sshStartToken; lia).
      apply instance_in_take in Hatp. rewrite Hbefa in Hatp by lia. done.
    - destruct (decide (a - 1 <= p)%nat) as [Hr|Hr]; [|lia].
      unfold t in Hatp. rewrite instance_right, Hlen, drop_drop in Hatp by lia.
      pose proof (HasPrefix_length _ _ Hatp) as Hin.
      rewrite length_drop, len_sshStartToken in Hin.
      assert (b + 35 + (p - (a - 1)) = a)%nat
        by (eapply (occurrences_unique s sshStartToken); [done | lia | lia | done | done]).
      lia. }
  (* and so does the end marker *)
  assert (q < a - 1 < q + 35)%nat as Hqx.
  { destruct (decide (q + 35 <= a - 1)%nat) as [Hl|Hl].
    - unfold t in Hatq. rewrite instance_left in Hatq
        by (rewrite len_sshEndToken; lia).
      apply instance_in_take in Hatq. rewrite Hbefb in Hatq by lia. done.
    - destruct (decide (a - 1 <= q)%nat) as [Hr|Hr]; [|lia].
      unfold t in Hatq. rewrite instance_right, Hlen, drop_drop in Hatq by lia.
      pose proof (HasPrefix_length _ _ Hatq) as Hin.
      rewrite length_drop, len_sshEndToken in Hin.
      assert (b + 35 + (q - (a - 1)) = b)%nat
        by (eapply (occurrences_unique s sshEndToken); [done | lia | lia | done | done]).
      lia. }
  destruct (markers_disjoint t p q Hatp Hatq); lia.
Qed.

End Excise.

(** ** C1, C3, C10: the claims about the removal *)

(** C1 (as amended).  When either marker is absent the text is returned
    unchanged.  When both are found, the start marker not at offset 0 and
    before the end marker, the text is [before ++ c ++ start marker ++
    inside ++ end marker ++ after], with the start marker and the end
    marker at their first instances, and the result is [before ++ after]:
    removed are the character before the start marker through the last
    character of the end marker; what follows the end marker is kept. *)
Theorem excise_removes_block (s : gostring) :
  (Index s sshStartToken = -1 \/ Index s sshEndToken = -1 -> excise s = Some s) /\
  (1 <= Index s sshStartToken -> Index s sshStartToken < Index s sshEndToken ->
   exists before c inside after,
     s = before ++ [c] ++ sshStartToken ++ inside ++ sshEndToken ++ after /\
     len before = Index s sshStartToken - 1 /\
     len (before ++ [c] ++ sshStartToken ++ inside) = Index s sshEndToken /\
     excise s = Some (before ++ after)).
Proof.
  split; [apply excise_absent|]. intros Ha1 Hab.
  set (a := Z.to_nat (Index s sshStartToken)).
  set (b := Z.to_nat (Index s sshEndToken)).
  assert (Index s sshStartToken = Z.of_nat a) as Ha by lia.
  assert (Index s sshEndToken = Z.of_nat b) as Hb by lia.
  pose proof (Index_bound _ _ _ Ha) as Hla. rewrite len_sshStartToken in Hla.
  pose proof (Index_bound _ _ _ Hb) as Hlb. rewrite len_sshEndToken in Hlb.
  destruct (Index_found _ _ _ Ha) as [Hata _].
  destruct (Index_found _ _ _ Hb) as [Hatb _].
  destruct (markers_disjoint s a b Hata Hatb) as [Hdis|Hdis]; [|lia].
  apply HasPrefix_true_iff in Hata as [ka Hka].
  apply HasPrefix_true_iff in Hatb as [kb Hkb].
  (* the pieces of [s] *)
  assert (exists c, drop (a - 1) s = c :: drop a s) as [c Hc].
  { destruct (drop (a - 1) s) as [|c r] eqn:E.
    - apply (f_equal length) in E. rewrite length_drop in E. simpl in E. lia.
    - exists c. f_equal.
      replace a with ((a - 1) + 1)%nat at 1 by lia.
      by rewrite <- drop_drop, E. }
  assert (ka = take (b - (a + 36)) ka ++ sshEndToken ++ kb) as Hmid.
  { rewrite <- Hkb.
    replace b with (a + (36 + (b - (a + 36))))%nat at 2 by lia.
    rewrite <- drop_drop, Hka, <- drop_drop.
    rewrite <- len_sshStartToken at 3. rewrite drop_app_length.
    by rewrite take_drop. }
  assert (length ka = (length s - a - 36)%nat) as Hlka.
  { apply (f_equal length) in Hka.
    rewrite length_drop, length_app, len_sshStartToken in Hka. lia. }
  exists (take (a - 1) s), c, (take (b - (a + 36)) ka), kb.
  assert (s = take (a - 1) s ++ [c] ++ sshStartToken ++
              take (b - (a + 36)) ka ++ sshEndToken ++ kb) as Hs.
  { rewrite <- Hmid, <- Hka. simpl. rewrite <- Hc. by rewrite take_drop. }
  split; [exact Hs|]. unfold len.
  rewrite !length_app, length_take, len_sshStartToken. simpl.
  rewrite length_take.
  split; [lia|]. split; [lia|].
  rewrite (excise_both s a b Ha Hb).
  destruct (decide (a = 0%nat)); [lia|].
  do 2 f_equal.
  replace (b + 35)%nat with (b + length sshEndToken)%nat by (rewrite len_sshEndToken; lia).
  by rewrite <- drop_drop, Hkb, drop_app_length.
Qed.

Lemma excise_removes_block_witness :
  let s := str "Host a" ++ nl ++ sshStartToken ++ nl ++ sshEndToken ++ nl ++ str "Host b" in
  exists before c inside after,
    s = before ++ [c] ++ sshStartToken ++ inside ++ sshEndToken ++ after /\
    len before = Index s sshStartToken - 1 /\
    len (before ++ [c] ++ sshStartToken ++ inside) = Index s sshEndToken /\
    excise s = Some (before ++ after).
Proof.
  intros s. apply (proj2 (excise_removes_block s)); vm_compute; [discriminate | reflexivity].
Defined.

(** C1 (as stated) fails.  In [Host a\n<start>\n<end>\nHost b] the
    character after the end marker is kept; with the end marker first,
    nothing is removed and the text between the markers is doubled; with the
    start marker at offset 0 nothing is returned. *)
Lemma excise_not_as_specified :
  let kept := str "Host a" ++ nl ++ sshStartToken ++ nl ++ sshEndToken ++ nl ++ str "Host b" in
  let swapped := sshEndToken ++ str "xx" ++ nl ++ sshStartToken in
  let first := sshStartToken ++ nl ++ sshEndToken in
  (excise kept = Some (str "Host a" ++ nl ++ str "Host b") /\
   excised_as_specified kept = str "Host aHost b" /\
   ~ excise_as_specified kept) /\
  (excise swapped = Some (sshEndToken ++ str "xxxx" ++ nl ++ sshStartToken) /\
   ~ excise_as_specified swapped) /\
  (excise first = None /\ ~ excise_as_specified first).
Proof.
  assert (forall s, Index s sshStartToken <> -1 -> Index s sshEndToken <> -1 ->
                    excise s <> Some (excised_as_specified s) ->
                    ~ excise_as_specified s) as Hnot.
  { intros s Hs He Hne [Hboth _]. by apply Hne, Hboth. }
  split; [|split].
  - split; [vm_compute; reflexivity|]. split; [vm_compute; reflexivity|].
    apply Hnot; vm_compute; discriminate.
  - split; [vm_compute; reflexivity|].
    apply Hnot; vm_compute; discriminate.
  - split; [vm_compute; reflexivity|].
    apply Hnot; vm_compute; discriminate.
Qed.

(** C3.  A text that begins with the start marker and contains the end
    marker makes [startIndex - 1] equal to [-1]; the slice [s[:-1]] panics
    and so does the removal.  With both markers present the removal returns
    a text exactly when at least one character precedes the start marker. *)
Theorem excise_panics_at_offset_0 (s : gostring) :
  Index s sshEndToken <> -1 ->
  (HasPrefix s sshStartToken = true ->
   Index s sshStartToken - 1 = -1 /\
   slice_to s (Index s sshStartToken - 1) = None /\
   excise s = None) /\
  (Index s sshStartToken <> -1 ->
   (is_Some (excise s) <-> 1 <= Index s sshStartToken)).
Proof.
  intros He. pose proof (Index_ge s sshEndToken).
  assert (Index s sshEndToken = Z.of_nat (Z.to_nat (Index s sshEndToken))) as Hb by lia.
  split.
  - intros Hpre.
    assert (Index s sshStartToken = Z.of_nat 0) as Ha
      by (apply Index_first; [done | lia]).
    rewrite (excise_both s _ _ Ha Hb), Ha. done.
  - intros Hs. pose proof (Index_ge s sshStartToken).
    assert (Index s sshStartToken = Z.of_nat (Z.to_nat (Index s sshStartToken))) as Ha by lia.
    rewrite (excise_both s _ _ Ha Hb).
    destruct (decide (Z.to_nat (Index s sshStartToken) = 0%nat)) as [Hz|Hz].
    + split; [intros [? ?]; done | lia].
    + split; [lia | by eexists].
Qed.

Lemma excise_panics_at_offset_0_witness :
  let s := sshStartToken ++ nl ++ str "Host coder.dev" ++ nl ++ sshEndToken in
  Index s sshStartToken - 1 = -1 /\
  slice_to s (Index s sshStartToken - 1) = None /\
  excise s = None.
Proof.
  intros s.
  apply (proj1 (excise_panics_at_offset_0 s ltac:(vm_compute; discriminate))).
  vm_compute; reflexivity.
Defined.

(** C10 (as stated) fails: with two blocks in the text, the first removal
    takes the first block out and the second removal the other one. *)
Lemma excise_twice_differs :
  let block := nl ++ sshStartToken ++ nl ++ sshEndToken in
  let s := str "a" ++ block ++ str "b" ++ block in
  excise s = Some (str "ab" ++ block) /\
  excise (str "ab" ++ block) = Some (str "ab") /\
  excise (str "ab" ++ block) <> Some (str "ab" ++ block).
Proof.
  intros block s.
  split; [vm_compute; reflexivity|]. split; [vm_compute; reflexivity|].
  vm_compute; discriminate.
Qed.

(** C10 (as amended).  For a text with at most one instance of each
    marker in which, when both are there, the start marker is not at offset
    0 and comes before the end marker, the removal returns a text and the
    removal applied to that text returns it unchanged. *)
Theorem excise_idempotent (s : gostring) :
  (occurrences s sshStartToken <= 1)%nat ->
  (occurrences s sshEndToken <= 1)%nat ->
  (Index s sshStartToken <> -1 -> Index s sshEndToken <> -1 ->
   1 <= Index s sshStartToken < Index s sshEndToken) ->
  exists t, excise s = Some t /\ excise t = Some t.
Proof.
  intros Hs1 He1 Hord.
  destruct (Z.eq_dec (Index s sshStartToken) (-1)) as [|Hs];
    [exists s; split; apply excise_absent; by left|].
  destruct (Z.eq_dec (Index s sshEndToken) (-1)) as [|He];
    [exists s; split; apply excise_absent; by right|].
  specialize (Hord Hs He).
  set (a := Z.to_nat (Index s sshStartToken)).
  set (b := Z.to_nat (Index s sshEndToken)).
  assert (Index s sshStartToken = Z.of_nat a) as Ha by lia.
  assert (Index s sshEndToken = Z.of_nat b) as Hb by lia.
  exists (take (a - 1) s ++ drop (b + 35) s). split.
  - rewrite (excise_both s a b Ha Hb). destruct (decide (a = 0%nat)); [lia | done].
  - apply excise_absent. apply excise_output_clean; [done | done | lia | lia | done | done].
Qed.

Lemma excise_idempotent_witness :
  let s := str "Host a" ++ nl ++ sshStartToken ++ nl ++ sshEndToken ++ nl ++ str "Host b" in
  exists t, excise s = Some t /\ excise t = Some t.
Proof.
  intros s. apply (excise_idempotent s).
  - vm_compute. lia.
  - vm_compute. lia.
  - intros _ _. vm_compute. split; [discriminate | reflexivity].
Defined.

(** * Facts about the stanzas *)

Section Stanzas.

Variables (env : Env) (flags : Flags) (binaryFile root : gostring).

(** The loop of lines 99-101 appends the indented options in order. *)
Lemma append_options (options : list gostring) (lines : list gostring) :
  fold_left (fun configOptions option => configOptions ++ [tab ++ option]) options lines
  = lines ++ map (fun option => tab ++ option) options.
Proof.
  revert lines; induction options as [|o options IH]; intros lines; simpl.
  - by rewrite app_nil_r.
  - rewrite IH, <- app_assoc. done.
Qed.

Lemma configOptions_eq (h : gostring) :
  configOptions env flags binaryFile root h =
    [str "Host coder." ++ h]
    ++ map (fun option => tab ++ option) (sshOptions flags)
    ++ [ tab ++ str "HostName coder." ++ h;
         tab ++ str "ConnectTimeout=0";
         tab ++ str "StrictHostKeyChecking=no";
         tab ++ str "UserKnownHostsFile=/dev/null";
         tab ++ str "LogLevel ERROR" ]
    ++ (if skipProxyCommand flags then []
        else [ tab ++ str "ProxyCommand " ++ Quote env binaryFile ++ str " --global-config "
                   ++ Quote env root ++ str " ssh --stdio " ++ h ]).
Proof.
  unfold configOptions. rewrite append_options.
  destruct (skipProxyCommand flags); simpl; rewrite <- ?app_assoc; done.
Qed.

Lemma proxyCommandLines_app (l1 l2 : list gostring) :
  proxyCommandLines (l1 ++ l2) = (proxyCommandLines l1 + proxyCommandLines l2)%nat.
Proof. unfold proxyCommandLines. by rewrite List.filter_app, length_app. Qed.

Lemma proxyCommandLines_options (options : list gostring) :
  (forall option, option ∈ options -> HasPrefix option (str "ProxyCommand ") = false) ->
  proxyCommandLines (map (fun option => tab ++ option) options) = 0%nat.
Proof.
  induction options as [|o options IH]; intros Hnone; [done|].
  unfold proxyCommandLines in *. cbn [map List.filter].
  assert (isProxyCommandLine (tab ++ o) = false) as ->.
  { unfold isProxyCommandLine. cbn. apply Hnone. left. }
  apply IH. intros option Hin. apply Hnone. by right.
Qed.

Lemma resourceStanzas_start (workspace : Workspace) (resource : WorkspaceResource) :
  Transition resource = WorkspaceTransitionStart ->
  resourceStanzas env flags binaryFile root workspace resource
  = map (stanza env flags binaryFile root workspace resource) (Agents resource).
Proof. intros Hstart. unfold resourceStanzas. by rewrite bool_decide_eq_false_2 by (by intros ?). Qed.

End Stanzas.

(** A name without a dot is cut off at the first dot of what follows. *)
Lemma dot_free_app_inj (w w' a a' : gostring) :
  "."%char ∉ w -> "."%char ∉ w' ->
  w ++ str "." ++ a = w' ++ str "." ++ a' -> w = w' /\ a = a'.
Proof.
  revert w'; induction w as [|c w IH]; intros [|c' w'] Hw Hw' Heq; simpl in *.
  - by injection Heq as ->.
  - injection Heq as <- _. exfalso. apply Hw'. left.
  - injection Heq as -> _. exfalso. apply Hw. left.
  - injection Heq as -> Heq. destruct (IH w') as [-> ->]; [| |done|done].
    + intros Hin. apply Hw. by right.
    + intros Hin. apply Hw'. by right.
Qed.

Lemma dot_free_no_suffix (w w' a' : gostring) :
  "."%char ∉ w -> w <> w' ++ str "." ++ a'.
Proof.
  intros Hw ->. apply Hw. apply elem_of_app. right. left.
Qed.

(** ** C4, C6, C7, C8, C9: the claims about the stanzas *)

(** C4 (as stated) fails.  In a workspace with two start resources of one
    agent each, the pairs (dev, main) and (dev, db) both get the alias
    coder.dev, and both stanzas are appended under it.  With a dot in a
    workspace name, the agent c of workspace a.b and the agent b.c of
    workspace a get the same alias in resources of several agents. *)
Lemma aliases_not_distinct :
  (runAliases twoResourcesClient [dev]
     = [ ((str "dev", str "main"), str "coder.dev");
         ((str "dev", str "db"), str "coder.dev") ] /\
   ~ aliases_distinct (runAliases twoResourcesClient [dev]) /\
   exists rest1 rest2,
     goroutine (exampleEnv twoResourcesClient) (exampleFlags [] true) twoResourcesClient
               (str "coder") (str "/home/u/.coder") dev
     = Ok [ str "Host coder.dev" ++ nl ++ rest1; str "Host coder.dev" ++ nl ++ rest2 ]) /\
  (let w1 := {| Name := str "a.b"; LatestBuild_TemplateVersionID := 1%N |} in
   let w2 := {| Name := str "a"; LatestBuild_TemplateVersionID := 2%N |} in
   let r1 := startResource [str "c"; str "d"] in
   let r2 := startResource [str "b.c"; str "d"] in
   hostAlias w1 r1 {| AgentName := str "c" |} = hostAlias w2 r2 {| AgentName := str "b.c" |}).
Proof.
  split; [|vm_compute; reflexivity].
  split; [vm_compute; reflexivity|]. split.
  - intros Hd.
    apply (Hd ((str "dev", str "main"), str "coder.dev")
              ((str "dev", str "db"), str "coder.dev")).
    + vm_compute. left.
    + vm_compute. right. left.
    + vm_compute. discriminate.
    + reflexivity.
  - eexists _, _. vm_compute. reflexivity.
Qed.

(** C4 (as amended).  When the workspace names contain no dot, two
    (workspace, agent) pairs get the same alias only if the workspaces have
    the same name and either both resources have at most one agent or both
    have several and the agents have the same name. *)
Theorem hostAlias_injective (w w' : Workspace) (r r' : WorkspaceResource)
    (a a' : WorkspaceAgent) :
  "."%char ∉ Name w -> "."%char ∉ Name w' ->
  hostAlias w r a = hostAlias w' r' a' ->
  Name w = Name w' /\
  ((length (Agents r) <= 1 /\ length (Agents r') <= 1)%nat \/
   (1 < length (Agents r) /\ 1 < length (Agents r') /\ AgentName a = AgentName a')%nat).
Proof.
  intros Hw Hw'. unfold hostAlias, hostname.
  intros Heq%(inj (app (str "coder."))).
  destruct (Z.ltb_spec 1 (Z.of_nat (length (Agents r)))) as [Hr|Hr];
    destruct (Z.ltb_spec 1 (Z.of_nat (length (Agents r')))) as [Hr'|Hr'].
  - apply dot_free_app_inj in Heq as [Hn Ha]; [|done|done].
    split; [done|]. right. split; [lia|]. split; [lia|done].
  - symmetry in Heq. by apply dot_free_no_suffix in Heq.
  - by apply dot_free_no_suffix in Heq.
  - split; [done|]. left. lia.
Qed.

Lemma hostAlias_injective_witness :
  Name dev = Name dev /\
  ((length (Agents (startResource [str "main"; str "db"])) <= 1 /\
    length (Agents (startResource [str "db"; str "main"])) <= 1)%nat \/
   (1 < length (Agents (startResource [str "main"; str "db"])) /\
    1 < length (Agents (startResource [str "db"; str "main"])) /\
    AgentName {| AgentName := str "main" |} = AgentName {| AgentName := str "main" |})%nat).
Proof.
  apply (hostAlias_injective dev dev (startResource [str "main"; str "db"])
           (startResource [str "db"; str "main"])
           {| AgentName := str "main" |} {| AgentName := str "main" |}).
  - by_decide.
  - by_decide.
  - reflexivity.
Defined.

(** C6.  The lines of a stanza, in order: the [Host] line, the extra
    options, each after a tab, the five fixed lines and, unless
    [skipProxyCommand] is set, the [ProxyCommand] line.  For workspace dev,
    one start resource with the single agent main, the extra option
    [ForwardAgent yes], the proxy line enabled and [%q] putting the two
    paths between double quotes, the one stanza is made of the eight lines
    of the scenario; written to a config file that did not exist, they
    stand between the header and the end marker. *)
Theorem stanza_lines_in_order :
  (forall env flags binaryFile root h,
     configOptions env flags binaryFile root h =
       [str "Host coder." ++ h]
       ++ map (fun option => tab ++ option) (sshOptions flags)
       ++ [ tab ++ str "HostName coder." ++ h;
            tab ++ str "ConnectTimeout=0";
            tab ++ str "StrictHostKeyChecking=no";
            tab ++ str "UserKnownHostsFile=/dev/null";
            tab ++ str "LogLevel ERROR" ]
       ++ (if skipProxyCommand flags then []
           else [ tab ++ str "ProxyCommand " ++ Quote env binaryFile
                      ++ str " --global-config " ++ Quote env root
                      ++ str " ssh --stdio " ++ h ])) /\
  (let lines :=
     [ str "Host coder.dev";
       tab ++ str "ForwardAgent yes";
       tab ++ str "HostName coder.dev";
       tab ++ str "ConnectTimeout=0";
       tab ++ str "StrictHostKeyChecking=no";
       tab ++ str "UserKnownHostsFile=/dev/null";
       tab ++ str "LogLevel ERROR";
       tab ++ str "ProxyCommand " ++ dquote ++ str "/usr/local/bin/coder" ++ dquote
           ++ str " --global-config " ++ dquote ++ str "/home/u/.coder" ++ dquote
           ++ str " ssh --stdio dev" ] in
   (forall env file,
      Quote env (str "/usr/local/bin/coder") = dquote ++ str "/usr/local/bin/coder" ++ dquote ->
      Quote env (str "/home/u/.coder") = dquote ++ str "/home/u/.coder" ++ dquote ->
      let flags := {| sshConfigFile := file; sshOptions := [str "ForwardAgent yes"];
                      skipProxyCommand := false |} in
      configOptions env flags (str "/usr/local/bin/coder") (str "/home/u/.coder")
                    (hostname dev (startResource [str "main"]) {| AgentName := str "main" |})
        = lines /\
      goroutine env flags devClient (str "/usr/local/bin/coder") (str "/home/u/.coder") dev
        = Ok [Join lines nl ++ nl]) /\
   let run := RunE (exampleEnv devClient) (exampleFlags [str "ForwardAgent yes"] false) [] emptyFS in
   run.1 = Returned None /\
   ReadFile (str "/home/u/.ssh/config") run.2
     = (header ++ Join lines nl ++ nl ++ nl ++ sshEndToken, None)).
Proof.
  split; [apply configOptions_eq|]. intros lines. split.
  - intros env file Hbin Hroot flags.
    assert (configOptions env flags (str "/usr/local/bin/coder") (str "/home/u/.coder")
              (hostname dev (startResource [str "main"]) {| AgentName := str "main" |})
            = lines) as Hlines.
    { rewrite configOptions_eq, Hbin, Hroot. vm_compute. reflexivity. }
    split; [exact Hlines|].
    unfold goroutine, devClient, TemplateVersionResources.
    cbn [flat_map]. rewrite app_nil_r.
    rewrite resourceStanzas_start by reflexivity.
    cbn [startResource Agents map]. unfold stanza. by rewrite Hlines.
  - vm_compute. split; reflexivity.
Qed.

Lemma stanza_lines_in_order_witness :
  let flags := exampleFlags [str "ForwardAgent yes"] false in
  goroutine (exampleEnv devClient) flags devClient
            (str "/usr/local/bin/coder") (str "/home/u/.coder") dev
  = Ok [ Join [ str "Host coder.dev";
                tab ++ str "ForwardAgent yes";
                tab ++ str "HostName coder.dev";
                tab ++ str "ConnectTimeout=0";
                tab ++ str "StrictHostKeyChecking=no";
                tab ++ str "UserKnownHostsFile=/dev/null";
                tab ++ str "LogLevel ERROR";
                tab ++ str "ProxyCommand " ++ dquote ++ str "/usr/local/bin/coder" ++ dquote
                    ++ str " --global-config " ++ dquote ++ str "/home/u/.coder" ++ dquote
                    ++ str " ssh --stdio dev" ] nl ++ nl ].
Proof.
  intros flags.
  apply (proj1 (proj2 stanza_lines_in_order) (exampleEnv devClient) (str "~/.ssh/config"));
    reflexivity.
Defined.

(** C7.  The first line of a stanza is [Host ] and the alias.  In a
    resource with exactly one agent the alias is coder.<workspace>; in a
    resource with more than one it is coder.<workspace>.<agent> for each
    agent: the agents a and b of one resource get coder.<workspace>.a and
    coder.<workspace>.b, and a start resource appends one stanza per agent,
    in order. *)
Theorem alias_of_agent (env : Env) (flags : Flags) (binaryFile root : gostring)
    (w : Workspace) (r : WorkspaceResource) :
  Transition r = WorkspaceTransitionStart ->
  resourceStanzas env flags binaryFile root w r
    = map (fun a => Join (configOptions env flags binaryFile root (hostname w r a)) nl ++ nl)
          (Agents r) /\
  (forall a, head (configOptions env flags binaryFile root (hostname w r a))
             = Some (str "Host " ++ hostAlias w r a)) /\
  (forall a, length (Agents r) = 1%nat -> hostAlias w r a = str "coder." ++ Name w) /\
  (forall a, (1 < length (Agents r))%nat ->
             hostAlias w r a = str "coder." ++ Name w ++ str "." ++ AgentName a) /\
  (Agents r = [ {| AgentName := str "a" |}; {| AgentName := str "b" |} ] ->
   map (hostAlias w r) (Agents r)
     = [ str "coder." ++ Name w ++ str ".a"; str "coder." ++ Name w ++ str ".b" ]).
Proof.
  intros Hstart. split; [by apply resourceStanzas_start|].
  split; [intros a; by rewrite configOptions_eq|].
  unfold hostAlias, hostname.
  split; [|split].
  - intros a Hone. rewrite Hone. reflexivity.
  - intros a Hmany.
    destruct (Z.ltb_spec 1 (Z.of_nat (length (Agents r)))); [done | lia].
  - intros ->. reflexivity.
Qed.

Lemma alias_of_agent_witness :
  map (hostAlias dev (startResource [str "a"; str "b"]))
      (Agents (startResource [str "a"; str "b"]))
  = [ str "coder." ++ Name dev ++ str ".a"; str "coder." ++ Name dev ++ str ".b" ].
Proof.
  apply (alias_of_agent (exampleEnv devClient) (exampleFlags [] false)
           (str "coder") (str "/home/u/.coder") dev (startResource [str "a"; str "b"]));
    reflexivity.
Defined.

(** C8 (as stated) fails: the extra options are copied into the stanza as
    they are given.  With the option [ProxyCommand none], a stanza has a
    [ProxyCommand] line although [skipProxyCommand] is set, and two
    without it. *)
Lemma proxyCommand_line_from_option :
  let lines skip :=
    configOptions (exampleEnv devClient) (exampleFlags [str "ProxyCommand none"] skip)
                  (str "coder") (str "/home/u/.coder") (str "dev") in
  tab ++ str "ProxyCommand none" ∈ lines true /\
  proxyCommandLines (lines true) = 1%nat /\
  proxyCommandLines (lines false) = 2%nat.
Proof.
  intros lines. split; [|split; vm_compute; reflexivity].
  vm_compute. right. left.
Qed.

(** C8 (as amended).  The [ProxyCommand] lines of a stanza are those among
    the extra options and, unless [skipProxyCommand] is set, one more, the
    last line of the stanza.  When no extra option begins with
    [ProxyCommand ], a stanza has none with the flag set and exactly one
    without it. *)
Theorem proxyCommand_lines (env : Env) (flags : Flags) (binaryFile root h : gostring) :
  let lines := configOptions env flags binaryFile root h in
  proxyCommandLines lines
    = (proxyCommandLines (map (fun option => tab ++ option) (sshOptions flags))
       + (if skipProxyCommand flags then 0 else 1))%nat /\
  (skipProxyCommand flags = false ->
   exists line, last lines = Some line /\ isProxyCommandLine line = true) /\
  ((forall option, option ∈ sshOptions flags -> HasPrefix option (str "ProxyCommand ") = false) ->
   proxyCommandLines lines = if skipProxyCommand flags then 0%nat else 1%nat).
Proof.
  intros lines.
  assert (proxyCommandLines lines
          = (proxyCommandLines (map (fun option => tab ++ option) (sshOptions flags))
             + (if skipProxyCommand flags then 0 else 1))%nat) as Hcount.
  { unfold lines. rewrite configOptions_eq, !proxyCommandLines_app.
    destruct (skipProxyCommand flags); reflexivity. }
  split; [exact Hcount|]. split.
  - intros Hskip. unfold lines. rewrite configOptions_eq, Hskip.
    eexists. rewrite !app_assoc, last_snoc. split; [reflexivity|]. reflexivity.
  - intros Hnone. rewrite Hcount.
    by rewrite proxyCommandLines_options.
Qed.

Lemma proxyCommand_lines_witness :
  let flags := exampleFlags [str "ForwardAgent yes"] false in
  let lines := configOptions (exampleEnv devClient) flags (str "coder") (str "/home/u/.coder")
                             (str "dev") in
  (exists line, last lines = Some line /\ isProxyCommandLine line = true) /\
  proxyCommandLines lines = 1%nat.
Proof.
  intros flags lines.
  pose proof (proxyCommand_lines (exampleEnv devClient) flags (str "coder")
                (str "/home/u/.coder") (str "dev")) as [_ [Hlast Hcount]].
  split; [apply Hlast; reflexivity|].
  apply Hcount. intros option Hin.
  apply list_elem_of_singleton in Hin as ->. reflexivity.
Defined.

(** C9.  A resource whose transition is not the start transition appends
    no stanza, whatever its agents; a workspace all of whose resources are
    such appends nothing. *)
Theorem no_stanza_unless_start (env : Env) (flags : Flags) (binaryFile root : gostring)
    (w : Workspace) (r : WorkspaceResource) :
  Transition r <> WorkspaceTransitionStart ->
  resourceStanzas env flags binaryFile root w r = [] /\
  forall client,
    TemplateVersionResources client (LatestBuild_TemplateVersionID w) = Ok [r] ->
    goroutine env flags client binaryFile root w = Ok [].
Proof.
  intros Hstop.
  assert (resourceStanzas env flags binaryFile root w r = []) as Hnone
    by (unfold resourceStanzas; by rewrite bool_decide_eq_true_2).
  split; [exact Hnone|].
  intros client Hres. unfold goroutine. rewrite Hres. cbn [flat_map].
  by rewrite Hnone.
Qed.

Lemma no_stanza_unless_start_witness :
  resourceStanzas (exampleEnv devClient) (exampleFlags [] false) (str "coder")
                  (str "/home/u/.coder") dev
                  {| Transition := str "stop";
                     Agents := [ {| AgentName := str "main" |}; {| AgentName := str "db" |} ] |}
  = [].
Proof.
  apply (no_stanza_unless_start (exampleEnv devClient) (exampleFlags [] false) (str "coder")
           (str "/home/u/.coder") dev
           {| Transition := str "stop";
              Agents := [ {| AgentName := str "main" |}; {| AgentName := str "db" |} ] |}).
  vm_compute. discriminate.
Defined.

(** * Facts about the whole command *)

Section Command.

Implicit Types s tok a b r : gostring.

(** Where a marker is found in a text put together with newlines. *)
Lemma Index_after_nl a tok r :
  "010"%char ∉ tok -> Index a tok = -1 ->
  Index (a ++ nl ++ tok ++ r) tok = len a + 1.
Proof.
  intros Hnl Ha. unfold len.
  replace (Z.of_nat (length a) + 1) with (Z.of_nat (length a + 1)) by lia.
  apply Index_first.
  - rewrite drop_app_ge by lia.
    replace (length a + 1 - length a)%nat with 1%nat by lia.
    apply HasPrefix_app.
  - intros m Hm. rewrite drop_app_le by lia.
    rewrite HasPrefix_before_nl by done. by apply Index_none.
Qed.

Lemma Index_none_nl a b tok :
  "010"%char ∉ tok -> Index a tok = -1 -> Index b tok = -1 ->
  Index (a ++ nl ++ b) tok = -1.
Proof.
  intros Hnl Ha Hb. apply Index_absent. intros n.
  destruct (decide (n <= length a)%nat).
  - rewrite drop_app_le by lia.
    rewrite HasPrefix_before_nl by done. by apply Index_none.
  - rewrite drop_app_ge by lia.
    replace (n - length a)%nat with (1 + (n - length a - 1))%nat by lia.
    rewrite <- drop_drop. cbn [nl app drop]. by apply Index_none.
Qed.

Lemma sshStartToken_no_nl : "010"%char ∉ sshStartToken.
Proof. by_decide. Qed.

Lemma sshEndToken_no_nl : "010"%char ∉ sshEndToken.
Proof. by_decide. Qed.

(** The block the command writes is the block it removes: the removal
    gives back the text the block was appended to, when that text has
    neither marker and the stanzas do not have the end marker. *)
Lemma excise_generated (prefix stanzas : gostring) :
  Index prefix sshStartToken = -1 -> Index prefix sshEndToken = -1 ->
  Index stanzas sshEndToken = -1 ->
  excise (prefix ++ header ++ stanzas ++ nl ++ sshEndToken) = Some prefix.
Proof.
  intros Hps Hpe Hse.
  set (text := prefix ++ header ++ stanzas ++ nl ++ sshEndToken).
  assert (Index text sshStartToken = Z.of_nat (length prefix + 1)) as Ha.
  { unfold text, header. rewrite <- !app_assoc.
    rewrite Index_after_nl by (done || apply sshStartToken_no_nl). unfold len. lia. }
  assert (Index text sshEndToken = Z.of_nat (length (prefix ++ header ++ stanzas) + 1)) as Hb.
  { replace text with ((prefix ++ header ++ stanzas) ++ nl ++ sshEndToken ++ [])
      by (unfold text; rewrite app_nil_r, <- !app_assoc; done).
    rewrite Index_after_nl; [unfold len; lia | apply sshEndToken_no_nl |].
    unfold header.
    replace (prefix ++ (nl ++ sshStartToken ++ nl ++ sshStartMessage ++ nl ++ nl) ++ stanzas)
      with (prefix ++ nl ++ (sshStartToken ++ nl ++ sshStartMessage ++ nl) ++ nl ++ stanzas)
      by (rewrite <- !app_assoc; done).
    apply Index_none_nl; [apply sshEndToken_no_nl | done |].
    apply Index_none_nl; [apply sshEndToken_no_nl | | done].
    vm_compute. reflexivity. }
  rewrite (excise_both text _ _ Ha Hb).
  destruct (decide (length prefix + 1 = 0)%nat); [lia|].
  replace (length prefix + 1 - 1)%nat with (length prefix) by lia.
  unfold text at 1. rewrite take_app_length.
  rewrite drop_ge, app_nil_r; [done|].
  unfold text. rewrite !length_app, len_sshEndToken. simpl. lia.
Qed.

(** The goroutines append to the buffer they are given. *)
Lemma drain_buffer (tasks : list (result (list gostring))) (buffer : gostring) err :
  drain tasks buffer err = (buffer ++ (drain tasks [] err).1, (drain tasks [] err).2).
Proof.
  revert buffer err; induction tasks as [|[appends|e] tasks IH]; intros buffer err; simpl.
  - by rewrite app_nil_r.
  - rewrite (IH (buffer ++ concat appends)), (IH (concat appends)).
    simpl. by rewrite app_assoc.
  - apply IH.
Qed.

Lemma errGroup_buffer (schedule : list nat) (tasks : list (result (list gostring)))
    (buffer : gostring) err :
  errGroup schedule tasks buffer err
  = (buffer ++ (errGroup schedule tasks [] err).1, (errGroup schedule tasks [] err).2).
Proof.
  revert tasks buffer err; induction schedule as [|i schedule IH]; intros tasks buffer err.
  - apply drain_buffer.
  - cbn [errGroup]. destruct (tasks !! i) as [[[|text appends]|e]|]; try apply IH.
    rewrite (IH _ (buffer ++ text)), (IH _ ([] ++ text)).
    simpl. by rewrite app_assoc.
Qed.

Context {FS : Type} `{FileSystem FS}.

(** What a run that returns [nil] has written. *)
Lemma RunE_written (env : Env) (flags : Flags) (schedule : list nat) (fs : FS)
    (client : Client) (organization : Organization) (workspaces : list Workspace)
    (binaryFile prefix : gostring) :
  createClient env = Ok client ->
  currentOrganization env client = Ok organization ->
  WorkspacesByOwner client (ID organization) = Ok workspaces ->
  currentBinPath env = Ok binaryFile ->
  excise (ReadFile (configPath env flags) fs).1 = Some prefix ->
  (RunE env flags schedule fs).1 = Returned None ->
  ReadFile (configPath env flags) (RunE env flags schedule fs).2
  = (prefix ++ header ++ stanzasText env flags client binaryFile workspaces schedule
       ++ nl ++ sshEndToken, None).
Proof.
  intros Hclient Horg Hws Hbin Hex. unfold RunE.
  rewrite Hclient, Horg, Hex, Hws, Hbin.
  destruct (Z.eqb_spec (Z.of_nat (length workspaces)) 0); [done|].
  rewrite errGroup_buffer. unfold stanzasText, tasksOf.
  destruct (errGroup schedule _ [] None) as [text [err|]]; [done|]. cbn [fst snd].
  destruct (MkdirAll _ fs) as [fs1 [err|]]; [done|].
  destruct (WriteFile _ _ fs1) as [fs2 [err|]] eqn:Hwrite; [done|].
  intros _. cbn [snd]. apply ReadFile_WriteFile in Hwrite.
  rewrite Hwrite. by rewrite <- !app_assoc.
Qed.

End Command.

(** ** C2, C5: the claims about the whole command *)

(** C2 (as stated) fails.  A config file that holds a start marker and no
    end marker is kept whole by the first run, which appends its block; the
    second run removes everything from that first start marker on, so the
    two runs leave different files.  And with two workspaces the order of
    the stanzas is the order in which the goroutines get the mutex: two
    runs on the same workspaces can leave the stanzas in different orders. *)
Lemma RunE_twice_differs :
  let path := str "/home/u/.ssh/config" in
  (let env := exampleEnv devClient in
   let flags := exampleFlags [] true in
   let run1 := RunE env flags [] (fileFS path (str "Host x" ++ nl ++ sshStartToken)) in
   let run2 := RunE env flags [] run1.2 in
   run1.1 = Returned None /\ run2.1 = Returned None /\
   (ReadFile path run1.2).1
     = str "Host x" ++ nl ++ sshStartToken ++ header
         ++ stanzasText env flags devClient (str "/usr/local/bin/coder") [dev] []
         ++ nl ++ sshEndToken /\
   (ReadFile path run2.2).1
     = str "Host x" ++ header
         ++ stanzasText env flags devClient (str "/usr/local/bin/coder") [dev] []
         ++ nl ++ sshEndToken /\
   ReadFile path run2.2 <> ReadFile path run1.2) /\
  (let env := exampleEnv twoClient in
   let flags := exampleFlags [] true in
   let run1 := RunE env flags [0; 1]%nat emptyFS in
   let run2 := RunE env flags [1; 0]%nat run1.2 in
   run1.1 = Returned None /\ run2.1 = Returned None /\
   ReadFile path run2.2 <> ReadFile path run1.2).
Proof.
  intros path. split.
  - intros env flags run1 run2.
    split; [vm_compute; reflexivity|]. split; [vm_compute; reflexivity|].
    split; [vm_compute; reflexivity|]. split; [vm_compute; reflexivity|].
    vm_compute. discriminate.
  - intros env flags run1 run2.
    split; [vm_compute; reflexivity|]. split; [vm_compute; reflexivity|].
    vm_compute. discriminate.
Qed.

(** C2 (as amended).  Take two runs in succession with the same workspaces,
    resources and agents, the same options, binary path and config root,
    and the same order of the appends.  If the text left by the removal in
    the first run has neither marker, and the stanzas do not have the end
    marker, then when both runs return [nil] the config file holds the same
    bytes after each: that text, the header, the stanzas and the end
    marker, once. *)
Theorem RunE_twice {FS : Type} `{FileSystem FS} (env : Env) (flags : Flags)
    (schedule : list nat) (fs : FS) (client : Client) (organization : Organization)
    (workspaces : list Workspace) (binaryFile prefix : gostring) :
  createClient env = Ok client ->
  currentOrganization env client = Ok organization ->
  WorkspacesByOwner client (ID organization) = Ok workspaces ->
  currentBinPath env = Ok binaryFile ->
  excise (ReadFile (configPath env flags) fs).1 = Some prefix ->
  Index prefix sshStartToken = -1 ->
  Index prefix sshEndToken = -1 ->
  Index (stanzasText env flags client binaryFile workspaces schedule) sshEndToken = -1 ->
  let run1 := RunE env flags schedule fs in
  let run2 := RunE env flags schedule run1.2 in
  run1.1 = Returned None ->
  run2.1 = Returned None ->
  let content :=
    prefix ++ header ++ stanzasText env flags client binaryFile workspaces schedule
      ++ nl ++ sshEndToken in
  ReadFile (configPath env flags) run1.2 = (content, None) /\
  ReadFile (configPath env flags) run2.2 = (content, None).
Proof.
  intros Hclient Horg Hws Hbin Hex Hps Hpe Hse run1 run2 Hrun1 Hrun2 content.
  assert (ReadFile (configPath env flags) run1.2 = (content, None)) as Hread1
    by (by eapply RunE_written).
  split; [exact Hread1|].
  eapply RunE_written; [done | done | done | done | | done].
  rewrite Hread1. by apply excise_generated.
Qed.

Lemma RunE_twice_witness :
  let env := exampleEnv devClient in
  let flags := exampleFlags [str "ForwardAgent yes"] false in
  let fs := fileFS (str "/home/u/.ssh/config") (str "Host x" ++ nl ++ str "  User me" ++ nl) in
  let run1 := RunE env flags [] fs in
  let run2 := RunE env flags [] run1.2 in
  let content :=
    (str "Host x" ++ nl ++ str "  User me" ++ nl) ++ header
      ++ stanzasText env flags devClient (str "/usr/local/bin/coder") [dev] []
      ++ nl ++ sshEndToken in
  ReadFile (configPath env flags) run1.2 = (content, None) /\
  ReadFile (configPath env flags) run2.2 = (content, None).
Proof.
  intros env flags fs run1 run2 content.
  apply (RunE_twice env flags [] fs devClient {| ID := 7%N |} [dev]
           (str "/usr/local/bin/coder") (str "Host x" ++ nl ++ str "  User me" ++ nl));
    vm_compute; reflexivity.
Defined.

(** C5.  When the service returns an empty list of workspaces, the run
    leaves the file system as it found it: no directory is made and no
    file written.  The workspaces are asked for after the old block is
    removed; in every run that gets there, [RunE] returns the error
    [You don't have any workspaces!]. *)
Theorem RunE_no_workspaces {FS : Type} `{FileSystem FS} (env : Env) (flags : Flags)
    (schedule : list nat) (fs : FS) (client : Client) (organization : Organization) :
  createClient env = Ok client ->
  currentOrganization env client = Ok organization ->
  WorkspacesByOwner client (ID organization) = Ok [] ->
  (RunE env flags schedule fs).2 = fs /\
  (is_Some (excise (ReadFile (configPath env flags) fs).1) ->
   (RunE env flags schedule fs).1 = Returned (Some noWorkspaces)).
Proof.
  intros Hclient Horg Hws. unfold RunE. rewrite Hclient, Horg, Hws.
  destruct (excise _) as [content|]; cbn.
  - split; [done | done].
  - split; [done | intros [? ?]; done].
Qed.

Lemma RunE_no_workspaces_witness :
  let env := exampleEnv emptyClient in
  let flags := exampleFlags [] false in
  let fs := fileFS (str "/home/u/.ssh/config") (str "Host x" ++ nl) in
  (RunE env flags [] fs).2 = fs /\
  (RunE env flags [] fs).1 = Returned (Some noWorkspaces).
Proof.
  intros env flags fs.
  destruct (RunE_no_workspaces env flags [] fs emptyClient {| ID := 7%N |}
              eq_refl eq_refl eq_refl) as [Hfs Hret].
  split; [exact Hfs|]. apply Hret. vm_compute. by eexists.
Defined.

(** * Further properties of the code *)

(** ** The goroutines (lines 77-126) *)

Section Goroutines.

Implicit Types tasks : list (result (list gostring)).

Lemma allAppends_app tasks1 tasks2 :
  allAppends (tasks1 ++ tasks2) = allAppends tasks1 ++ allAppends tasks2.
Proof. unfold allAppends. apply flat_map_app. Qed.

Lemma allAppends_lookup tasks (i : nat) task :
  tasks !! i = Some task ->
  allAppends tasks
  = allAppends (take i tasks) ++ appendsOf task ++ allAppends (drop (S i) tasks).
Proof.
  intros Hi. rewrite <- (take_drop_middle tasks i task Hi) at 1.
  rewrite allAppends_app. reflexivity.
Qed.

Lemma allAppends_insert tasks (i : nat) task task' :
  tasks !! i = Some task ->
  allAppends (<[i := task']> tasks)
  = allAppends (take i tasks) ++ appendsOf task' ++ allAppends (drop (S i) tasks).
Proof.
  intros Hi. rewrite insert_take_drop by (by eapply lookup_lt_Some).
  rewrite allAppends_app. reflexivity.
Qed.

Lemma appends_sublist tasks (i : nat) appends :
  tasks !! i = Some (Ok appends) -> appends `sublist_of` allAppends tasks.
Proof.
  intros Hi. rewrite (allAppends_lookup _ _ _ Hi). simpl.
  apply sublist_inserts_l, sublist_inserts_r. reflexivity.
Qed.

Lemma drain_appends tasks (buffer : gostring) err :
  (drain tasks buffer err).1 = buffer ++ concat (allAppends tasks).
Proof.
  revert buffer err; induction tasks as [|[appends|e] tasks IH]; intros buffer err; simpl.
  - by rewrite app_nil_r.
  - rewrite IH. unfold allAppends. by rewrite concat_app, app_assoc.
  - apply IH.
Qed.

(** The error of the group: the one it had, or the first reported. *)
Lemma drain_error tasks (buffer : gostring) err :
  (drain tasks buffer err).2
  = match err with
    | Some e => Some e
    | None => (drain tasks buffer None).2
    end.
Proof.
  revert buffer err; induction tasks as [|[appends|e] tasks IH]; intros buffer err; simpl.
  - by destruct err.
  - apply IH.
  - rewrite IH. rewrite (IH _ (Some e)). by destruct err.
Qed.

Lemma errGroup_error (schedule : list nat) tasks (buffer : gostring) err :
  (errGroup schedule tasks buffer err).2
  = match err with
    | Some e => Some e
    | None => (errGroup schedule tasks buffer None).2
    end.
Proof.
  revert tasks buffer err; induction schedule as [|i schedule IH]; intros tasks buffer err.
  - apply drain_error.
  - cbn [errGroup]. destruct (tasks !! i) as [[[|text appends]|e]|]; try apply IH.
    rewrite IH. rewrite (IH _ _ (Some e)). by destruct err.
Qed.

Lemma drain_no_error tasks (buffer : gostring) :
  (drain tasks buffer None).2 = None <-> forall e, Err e ∉ tasks.
Proof.
  revert buffer; induction tasks as [|[appends|e] tasks IH]; intros buffer; simpl.
  - split; [intros _ e Hin; by apply elem_of_nil in Hin | done].
  - rewrite IH. split.
    + intros Hno e Hin. apply elem_of_cons in Hin as [Heq|Hin]; [done|]. by apply (Hno e).
    + intros Hno e Hin. apply (Hno e). by right.
  - rewrite drain_error. split; [done|]. intros Hno. exfalso. apply (Hno e). left.
Qed.

Lemma drain_some_error tasks (buffer : gostring) e :
  (drain tasks buffer None).2 = Some e -> Err e ∈ tasks.
Proof.
  revert buffer; induction tasks as [|[appends|e'] tasks IH]; intros buffer; simpl.
  - done.
  - intros Hin%IH. by right.
  - rewrite drain_error. intros [= ->]. left.
Qed.

End Goroutines.

(** X1.  Whatever the schedule and whether or not goroutines fail, the
    buffer after the group is the buffer before it followed by the stanzas
    of all goroutines, each stanza once and whole, the stanzas of one
    goroutine in the order in which it appends them. *)
Theorem errGroup_interleaves (schedule : list nat) (tasks : list (result (list gostring)))
    (buffer : gostring) (err : option error) :
  exists chunks : list gostring,
    (errGroup schedule tasks buffer err).1 = buffer ++ concat chunks /\
    chunks ≡ₚ allAppends tasks /\
    forall (i : nat) appends, tasks !! i = Some (Ok appends) -> appends `sublist_of` chunks.
Proof.
  revert tasks buffer err; induction schedule as [|i schedule IH]; intros tasks buffer err.
  - exists (allAppends tasks). split; [apply drain_appends|]. split; [done|].
    intros j appends. apply appends_sublist.
  - cbn [errGroup]. destruct (tasks !! i) as [[[|text appends]|e]|] eqn:Hi; try apply IH.
    + (* the goroutine makes its next append *)
      destruct (IH (<[i := Ok appends]> tasks) (buffer ++ text) err)
        as (chunks & Htext & Hperm & Hsub).
      exists (text :: chunks). split; [|split].
      * rewrite Htext. simpl. by rewrite app_assoc.
      * rewrite Hperm, (allAppends_lookup _ _ _ Hi), (allAppends_insert _ _ _ _ Hi).
        simpl. apply Permutation_middle.
      * intros j q Hj. destruct (decide (j = i)) as [Heq|Hne].
        -- subst j. pose proof (eq_trans (eq_sym Hj) Hi) as Hq. injection Hq as ->.
           apply sublist_skip.
           apply (Hsub i). apply list_lookup_insert_eq. by eapply lookup_lt_Some.
        -- apply sublist_cons. apply (Hsub j). by rewrite list_lookup_insert_ne.
    + (* the goroutine reports its error *)
      destruct (IH (<[i := Ok []]> tasks) buffer (keepFirst err e))
        as (chunks & Htext & Hperm & Hsub).
      exists chunks. split; [done|]. split.
      * rewrite Hperm, (allAppends_lookup _ _ _ Hi), (allAppends_insert _ _ _ _ Hi). done.
      * intros j q Hj. destruct (decide (j = i)) as [Heq|Hne].
        { subst j. pose proof (eq_trans (eq_sym Hj) Hi) as Hq. discriminate Hq. }
        apply (Hsub j). by rewrite list_lookup_insert_ne.
Qed.

Lemma errGroup_reports (schedule : list nat) (tasks : list (result (list gostring)))
    (buffer : gostring) :
  ((errGroup schedule tasks buffer None).2 = None <-> forall e, Err e ∉ tasks) /\
  (forall e, (errGroup schedule tasks buffer None).2 = Some e -> Err e ∈ tasks).
Proof.
  revert tasks buffer; induction schedule as [|i schedule IH]; intros tasks buffer.
  - split; [apply drain_no_error | intros e; apply drain_some_error].
  - cbn [errGroup]. destruct (tasks !! i) as [[[|text appends]|e]|] eqn:Hi; try apply IH.
    + (* an append does not change who failed *)
      destruct (IH (<[i := Ok appends]> tasks) (buffer ++ text)) as [Hnone Hsome].
      assert (forall e, Err e ∈ <[i := Ok appends]> tasks <-> Err e ∈ tasks) as Hsame.
      { intros e. rewrite !list_elem_of_lookup. split; intros [j Hj].
        - destruct (decide (j = i)) as [Heq|Hne].
          + subst j. rewrite list_lookup_insert_eq in Hj by (by eapply lookup_lt_Some). done.
          + rewrite list_lookup_insert_ne in Hj by done. eauto.
        - destruct (decide (j = i)) as [Heq|Hne].
          { subst j. pose proof (eq_trans (eq_sym Hj) Hi) as Hq. discriminate Hq. }
          exists j. by rewrite list_lookup_insert_ne. }
      split.
      * rewrite Hnone. split; intros Hno e Hin; apply (Hno e); by apply Hsame.
      * intros e He. apply Hsame. by apply Hsome.
    + (* the first error reported is kept *)
      rewrite errGroup_error. cbn [keepFirst]. split.
      * split; [done|]. intros Hno. exfalso. apply (Hno e).
        apply list_elem_of_lookup. eauto.
      * intros e' [= <-]. apply list_elem_of_lookup. eauto.
Qed.

(** X2.  The group returns [nil] exactly when no goroutine failed; an
    error it returns is the error of one of the goroutines that failed; and
    an error already kept is not replaced by a later one. *)
Theorem errGroup_first_error (schedule : list nat) (tasks : list (result (list gostring)))
    (buffer : gostring) :
  ((errGroup schedule tasks buffer None).2 = None <-> forall e, Err e ∉ tasks) /\
  (forall e, (errGroup schedule tasks buffer None).2 = Some e -> Err e ∈ tasks) /\
  (forall e, (errGroup schedule tasks buffer (Some e)).2 = Some e).
Proof.
  destruct (errGroup_reports schedule tasks buffer) as [Hnone Hsome].
  split; [exact Hnone|]. split; [exact Hsome|].
  intros e. by rewrite errGroup_error.
Qed.

(** ** The command as a whole (lines 40-135) *)

Section Runs.

Context {FS : Type} `{FileSystem FS}.

Implicit Types (env : Env) (flags : Flags) (schedule : list nat) (fs : FS).

Lemma goroutine_failed env flags client binaryFile root workspace e :
  goroutine env flags client binaryFile root workspace = Err e <->
  TemplateVersionResources client (LatestBuild_TemplateVersionID workspace) = Err e.
Proof.
  unfold goroutine.
  destruct (TemplateVersionResources client _); split; congruence.
Qed.

Lemma Index_present (s tok : gostring) (n : nat) :
  HasPrefix (drop n s) tok = true -> Index s tok <> -1.
Proof. intros Hat Hno. by rewrite (Index_none s tok Hno n) in Hat. Qed.

(** What there is to know of a run that returned [nil]. *)
Lemma RunE_success_inv env flags schedule fs :
  (RunE env flags schedule fs).1 = Returned None ->
  exists client organization workspaces binaryFile prefix,
    createClient env = Ok client /\
    currentOrganization env client = Ok organization /\
    WorkspacesByOwner client (ID organization) = Ok workspaces /\
    workspaces <> [] /\
    currentBinPath env = Ok binaryFile /\
    excise (ReadFile (configPath env flags) fs).1 = Some prefix /\
    (forall workspace, workspace ∈ workspaces ->
       exists resources,
         TemplateVersionResources client (LatestBuild_TemplateVersionID workspace)
         = Ok resources) /\
    ReadFile (configPath env flags) (RunE env flags schedule fs).2
    = (prefix ++ header ++ stanzasText env flags client binaryFile workspaces schedule
         ++ nl ++ sshEndToken, None).
Proof.
  intros Hrun.
  assert ((RunE env flags schedule fs).1 = Returned None) as Hrun' by exact Hrun.
  unfold RunE in Hrun.
  destruct (createClient env) as [client|] eqn:Hclient; [|done].
  destruct (currentOrganization env client) as [organization|] eqn:Horg; [|done].
  destruct (excise _) as [prefix|] eqn:Hex; [|done].
  destruct (WorkspacesByOwner client (ID organization)) as [workspaces|] eqn:Hws; [|done].
  destruct (Z.eqb_spec (Z.of_nat (length workspaces)) 0) as [|Hlen]; [done|].
  destruct (currentBinPath env) as [binaryFile|] eqn:Hbin; [|done].
  destruct (errGroup schedule _ (prefix ++ header) None) as [text [err|]] eqn:Hgroup; [done|].
  exists client, organization, workspaces, binaryFile, prefix.
  repeat (split; [done|]).
  split; [by intros ->|]. split; [done|]. split; [done|]. split.
  - intros workspace Hin.
    destruct (TemplateVersionResources client (LatestBuild_TemplateVersionID workspace))
      as [resources|e] eqn:Hres; [by exists resources|].
    exfalso.
    pose proof (errGroup_reports schedule
                  (map (goroutine env flags client binaryFile (createConfig env)) workspaces)
                  (prefix ++ header)) as [Hnone _].
    rewrite Hgroup in Hnone. apply (proj1 Hnone eq_refl e).
    apply list_elem_of_fmap. exists workspace. split; [|done].
    symmetry. by apply goroutine_failed.
  - by eapply RunE_written.
Qed.

(** With at most one goroutine there is one order. *)
Lemma errGroup_single schedule (tasks : list (result (list gostring)))
    (buffer : gostring) err :
  (length tasks <= 1)%nat ->
  errGroup schedule tasks buffer err = drain tasks buffer err.
Proof.
  revert tasks buffer err; induction schedule as [|i schedule IH];
    intros tasks buffer err Hlen; [done|].
  cbn [errGroup]. destruct (tasks !! i) as [[[|text appends]|e]|] eqn:Hi;
    try (by apply IH).
  - destruct tasks as [|task [|? ?]]; [done| |simpl in Hlen; lia].
    destruct i as [|i]; [|done]. simpl in Hi. injection Hi as ->.
    rewrite IH by done. simpl. by rewrite <- app_assoc.
  - destruct tasks as [|task [|? ?]]; [done| |simpl in Hlen; lia].
    destruct i as [|i]; [|done]. simpl in Hi. injection Hi as ->.
    rewrite IH by done. simpl. by rewrite app_nil_r.
Qed.

End Runs.

(** X3.  When the resources of one of the workspaces cannot be fetched,
    the run returns the error of a workspace whose fetch failed and leaves
    the file system as it was: no directory is made and nothing is
    written, whatever the other goroutines appended. *)
Theorem RunE_resource_error {FS : Type} `{FileSystem FS} (env : Env) (flags : Flags)
    (schedule : list nat) (fs : FS) (client : Client) (organization : Organization)
    (workspaces : list Workspace) (binaryFile prefix : gostring)
    (workspace : Workspace) (e0 : error) :
  createClient env = Ok client ->
  currentOrganization env client = Ok organization ->
  WorkspacesByOwner client (ID organization) = Ok workspaces ->
  currentBinPath env = Ok binaryFile ->
  excise (ReadFile (configPath env flags) fs).1 = Some prefix ->
  workspace ∈ workspaces ->
  TemplateVersionResources client (LatestBuild_TemplateVersionID workspace) = Err e0 ->
  (RunE env flags schedule fs).2 = fs /\
  exists failed e,
    failed ∈ workspaces /\
    TemplateVersionResources client (LatestBuild_TemplateVersionID failed) = Err e /\
    (RunE env flags schedule fs).1 = Returned (Some e).
Proof.
  intros Hclient Horg Hws Hbin Hex Hin Hres. unfold RunE.
  rewrite Hclient, Horg, Hex, Hws, Hbin.
  destruct (Z.eqb_spec (Z.of_nat (length workspaces)) 0) as [Hlen|Hlen].
  { destruct workspaces; [by apply elem_of_nil in Hin | simpl in Hlen; lia]. }
  pose proof (errGroup_reports schedule
                (map (goroutine env flags client binaryFile (createConfig env)) workspaces)
                (prefix ++ header)) as [Hnone Hsome].
  destruct (errGroup schedule _ (prefix ++ header) None) as [text [e|]]; cbn [fst snd] in *.
  - split; [done|].
    specialize (Hsome e eq_refl).
    apply list_elem_of_fmap in Hsome as [failed [Hfailed Hfin]].
    exists failed, e. split; [done|]. split; [|done].
    by apply (goroutine_failed env flags client binaryFile (createConfig env)).
  - exfalso. apply (proj1 Hnone eq_refl e0).
    apply list_elem_of_fmap. exists workspace. split; [|done].
    symmetry. by apply goroutine_failed.
Qed.

Lemma RunE_resource_error_witness :
  let client := tableClient [dev; web]
                  (fun id => if (id =? 2)%N then Err (str "connection refused")
                             else Ok [startResource [str "main"]]) in
  let fs := fileFS (str "/home/u/.ssh/config") (str "Host x" ++ nl) in
  (RunE (exampleEnv client) (exampleFlags [] false) [0; 0; 1]%nat fs).2 = fs /\
  exists failed e,
    failed ∈ [dev; web] /\
    TemplateVersionResources client (LatestBuild_TemplateVersionID failed) = Err e /\
    (RunE (exampleEnv client) (exampleFlags [] false) [0; 0; 1]%nat fs).1 = Returned (Some e).
Proof.
  intros client fs.
  apply (RunE_resource_error (exampleEnv client) (exampleFlags [] false) [0; 0; 1]%nat fs
           client {| ID := 7%N |} [dev; web] (str "/usr/local/bin/coder")
           (str "Host x" ++ nl) web (str "connection refused"));
    try reflexivity.
  right. left.
Defined.

(** X4.  A run changes the file system only after everything else went
    well: either the file system is as it was, or the client, the
    organization, a non-empty list of workspaces and the path of the binary
    were obtained, the removal of the old block returned, and the resources
    of every workspace were fetched. *)
Theorem RunE_writes_last {FS : Type} `{FileSystem FS} (env : Env) (flags : Flags)
    (schedule : list nat) (fs : FS) :
  (RunE env flags schedule fs).2 = fs \/
  exists client organization workspaces binaryFile prefix,
    createClient env = Ok client /\
    currentOrganization env client = Ok organization /\
    WorkspacesByOwner client (ID organization) = Ok workspaces /\
    workspaces <> [] /\
    currentBinPath env = Ok binaryFile /\
    excise (ReadFile (configPath env flags) fs).1 = Some prefix /\
    forall workspace, workspace ∈ workspaces ->
      exists resources,
        TemplateVersionResources client (LatestBuild_TemplateVersionID workspace)
        = Ok resources.
Proof.
  unfold RunE.
  destruct (createClient env) as [client|] eqn:Hclient; [|by left].
  destruct (currentOrganization env client) as [organization|] eqn:Horg; [|by left].
  destruct (excise _) as [prefix|] eqn:Hex; [|by left].
  destruct (WorkspacesByOwner client (ID organization)) as [workspaces|] eqn:Hws; [|by left].
  destruct (Z.eqb_spec (Z.of_nat (length workspaces)) 0) as [|Hlen]; [by left|].
  destruct (currentBinPath env) as [binaryFile|] eqn:Hbin; [|by left].
  pose proof (errGroup_reports schedule
                (map (goroutine env flags client binaryFile (createConfig env)) workspaces)
                (prefix ++ header)) as [Hnone _].
  destruct (errGroup schedule _ (prefix ++ header) None) as [text [err|]]; [by left|].
  right. exists client, organization, workspaces, binaryFile, prefix.
  repeat (split; [done|]). split; [by intros ->|]. split; [done|]. split; [done|].
  intros workspace Hin.
  destruct (TemplateVersionResources client (LatestBuild_TemplateVersionID workspace))
    as [resources|e] eqn:Hres; [by exists resources|].
  exfalso. apply (proj1 Hnone eq_refl e).
  apply list_elem_of_fmap. exists workspace. split; [|done].
  symmetry. by apply goroutine_failed.
Qed.





(** X7.  A config file that begins with the start marker and holds no end
    marker is kept by a run, which appends its block; after that run has
    returned [nil], every further run panics in the removal of the block
    and leaves the file system as it is. *)
Theorem RunE_then_panics {FS : Type} `{FileSystem FS} (env : Env) (flags : Flags)
    (schedule : list nat) (fs : FS) :
  HasPrefix (ReadFile (configPath env flags) fs).1 sshStartToken = true ->
  Index (ReadFile (configPath env flags) fs).1 sshEndToken = -1 ->
  (RunE env flags schedule fs).1 = Returned None ->
  forall schedule',
    RunE env flags schedule' (RunE env flags schedule fs).2
    = (Panicked, (RunE env flags schedule fs).2).
Proof.
  intros Hstart Hend Hrun schedule'.
  destruct (RunE_success_inv env flags schedule fs Hrun)
    as (client & organization & workspaces & binaryFile & prefix
        & Hclient & Horg & _ & _ & _ & Hex & _ & Hread).
  rewrite excise_absent in Hex by (by right). injection Hex as <-.
  set (old := (ReadFile (configPath env flags) fs).1) in *.
  set (content := old ++ header
                    ++ stanzasText env flags client binaryFile workspaces schedule
                    ++ nl ++ sshEndToken) in *.
  assert (excise content = None) as Hpanic.
  { assert (Index content sshStartToken = Z.of_nat 0) as Ha.
    { apply Index_first; [|lia]. change (drop 0 content) with content.
      apply HasPrefix_true_iff in Hstart as [k Hk].
      unfold content. rewrite Hk, <- app_assoc. apply HasPrefix_app. }
    assert (Index content sshEndToken <> -1) as Hb.
    { apply (Index_present _ _ (length (old ++ header
               ++ stanzasText env flags client binaryFile workspaces schedule ++ nl))).
      unfold content.
      replace (old ++ header ++ stanzasText env flags client binaryFile workspaces schedule
                 ++ nl ++ sshEndToken)
        with ((old ++ header ++ stanzasText env flags client binaryFile workspaces schedule
                 ++ nl) ++ sshEndToken ++ [])
        by (rewrite app_nil_r, <- !app_assoc; done).
      rewrite drop_app_length. apply HasPrefix_app. }
    pose proof (Index_ge content sshEndToken).
    rewrite (excise_both content 0 (Z.to_nat (Index content sshEndToken)) Ha) by lia.
    done. }
  unfold RunE at 1. rewrite Hclient, Horg, Hread. cbn [fst]. by rewrite Hpanic.
Qed.

Lemma RunE_then_panics_witness :
  let env := exampleEnv devClient in
  let flags := exampleFlags [] false in
  let fs := fileFS (str "/home/u/.ssh/config") (sshStartToken ++ nl ++ str "Host x" ++ nl) in
  RunE env flags [0]%nat (RunE env flags [] fs).2 = (Panicked, (RunE env flags [] fs).2).
Proof.
  intros env flags fs.
  apply (RunE_then_panics env flags [] fs); vm_compute; reflexivity.
Defined.

(** X8.  With at most one workspace the scheduler has no choice: the run
    ends the same way and leaves the same file system under every
    schedule. *)
Theorem RunE_one_workspace {FS : Type} `{FileSystem FS} (env : Env) (flags : Flags)
    (fs : FS) (client : Client) (organization : Organization)
    (workspaces : list Workspace) :
  createClient env = Ok client ->
  currentOrganization env client = Ok organization ->
  WorkspacesByOwner client (ID organization) = Ok workspaces ->
  (length workspaces <= 1)%nat ->
  forall schedule schedule',
    RunE env flags schedule fs = RunE env flags schedule' fs.
Proof.
  intros Hclient Horg Hws Hlen schedule schedule'. unfold RunE.
  rewrite Hclient, Horg, Hws.
  destruct (excise _) as [prefix|]; [|done].
  destruct (Z.of_nat (length workspaces) =? 0); [done|].
  destruct (currentBinPath env) as [binaryFile|]; [|done].
  by rewrite !errGroup_single by (by rewrite length_map).
Qed.

Lemma RunE_one_workspace_witness :
  RunE (exampleEnv devClient) (exampleFlags [] false) [0; 0]%nat emptyFS
  = RunE (exampleEnv devClient) (exampleFlags [] false) [] emptyFS.
Proof.
  apply (RunE_one_workspace (exampleEnv devClient) (exampleFlags [] false) emptyFS
           devClient {| ID := 7%N |} [dev]);
    [reflexivity | reflexivity | reflexivity | simpl; lia].
Defined.



(** ** The removal with the markers in the wrong order (lines 56-60) *)

(** X9.  Nothing checks that the start marker comes first.  When the end
    marker is found before the start marker, with text between them, the
    removal takes nothing out: the text from behind the end marker up to
    the character before the start marker is in the result twice. *)
Theorem excise_swapped_doubles (s : gostring) :
  Index s sshEndToken <> -1 ->
  Index s sshEndToken + len sshEndToken < Index s sshStartToken ->
  exists upto between rest,
    s = upto ++ between ++ rest /\
    len upto = Index s sshEndToken + len sshEndToken /\
    len (upto ++ between) = Index s sshStartToken - 1 /\
    excise s = Some (upto ++ between ++ between ++ rest).
Proof.
  intros He Hlt. pose proof (Index_ge s sshEndToken).
  unfold len in *. rewrite len_sshEndToken in *.
  set (a := Z.to_nat (Index s sshStartToken)).
  set (b := Z.to_nat (Index s sshEndToken)).
  assert (Index s sshStartToken = Z.of_nat a) as Ha by lia.
  assert (Index s sshEndToken = Z.of_nat b) as Hb by lia.
  pose proof (Index_bound _ _ _ Ha) as Hla. rewrite len_sshStartToken in Hla.
  exists (take (b + 35) s), (take (a - 1 - (b + 35)) (drop (b + 35) s)), (drop (a - 1) s).
  assert (take (a - 1) s
          = take (b + 35) s ++ take (a - 1 - (b + 35)) (drop (b + 35) s)) as Htake.
  { rewrite <- (take_drop (b + 35) s) at 1.
    rewrite take_app_ge by (rewrite length_take; lia).
    rewrite length_take. do 2 f_equal. lia. }
  assert (drop (b + 35) s
          = take (a - 1 - (b + 35)) (drop (b + 35) s) ++ drop (a - 1) s) as Hdrop.
  { rewrite <- (take_drop (a - 1 - (b + 35)) (drop (b + 35) s)) at 1.
    rewrite drop_drop. do 2 f_equal. lia. }
  split; [|split; [|split]].
  - rewrite app_assoc, <- Htake. by rewrite take_drop.
  - rewrite length_take. lia.
  - rewrite <- Htake, length_take. lia.
  - rewrite (excise_both s a b Ha Hb).
    destruct (decide (a = 0%nat)); [lia|].
    rewrite Htake, <- app_assoc. by rewrite <- Hdrop.
Qed.

Lemma excise_swapped_doubles_witness :
  let s := str "Host a" ++ nl ++ sshEndToken ++ nl ++ str "Host b" ++ nl ++ sshStartToken in
  exists upto between rest,
    s = upto ++ between ++ rest /\
    len upto = Index s sshEndToken + len sshEndToken /\
    len (upto ++ between) = Index s sshStartToken - 1 /\
    excise s = Some (upto ++ between ++ between ++ rest).
Proof.
  intros s. apply (excise_swapped_doubles s); vm_compute; [discriminate | reflexivity].
Defined.

(** ** The text of the stanzas (lines 86-119) *)

Lemma Join_terminated (lines : list gostring) :
  lines <> [] ->
  Join lines nl ++ nl = concat (map (fun line => line ++ nl) lines).
Proof.
  induction lines as [|line [|line' lines] IH]; intros Hne; [done| |].
  - simpl. by rewrite app_nil_r.
  - change (Join (line :: line' :: lines) nl) with (line ++ nl ++ Join (line' :: lines) nl).
    rewrite <- !app_assoc, IH by done. simpl. by rewrite <- !app_assoc.
Qed.

(** X10.  A stanza is made of its lines, each closed by a newline; there
    are six of them besides the extra options, and one more unless
    [skipProxyCommand] is set; every line after the [Host] line begins with
    a tab. *)
Theorem stanza_shape (env : Env) (flags : Flags) (binaryFile root : gostring)
    (workspace : Workspace) (resource : WorkspaceResource) (agent : WorkspaceAgent) :
  let lines := configOptions env flags binaryFile root (hostname workspace resource agent) in
  stanza env flags binaryFile root workspace resource agent
    = concat (map (fun line => line ++ nl) lines) /\
  length lines
    = (6 + length (sshOptions flags) + (if skipProxyCommand flags then 0 else 1))%nat /\
  Forall (fun line => HasPrefix line tab = true) (tail lines).
Proof.
  intros lines. unfold stanza. fold lines.
  assert (lines
          = [str "Host coder." ++ hostname workspace resource agent]
            ++ map (fun option => tab ++ option) (sshOptions flags)
            ++ [ tab ++ str "HostName coder." ++ hostname workspace resource agent;
                 tab ++ str "ConnectTimeout=0";
                 tab ++ str "StrictHostKeyChecking=no";
                 tab ++ str "UserKnownHostsFile=/dev/null";
                 tab ++ str "LogLevel ERROR" ]
            ++ (if skipProxyCommand flags then []
                else [ tab ++ str "ProxyCommand " ++ Quote env binaryFile
                           ++ str " --global-config " ++ Quote env root
                           ++ str " ssh --stdio " ++ hostname workspace resource agent ]))
    as Hlines by apply configOptions_eq.
  split; [|split].
  - apply Join_terminated. by rewrite Hlines.
  - rewrite Hlines, !length_app, length_map.
    destruct (skipProxyCommand flags); simpl; unfold gostring; lia.
  - rewrite Hlines. cbn [app tail]. apply Forall_app. split.
    + apply Forall_forall. intros line [option [-> _]]%list_elem_of_fmap. reflexivity.
    + destruct (skipProxyCommand flags); repeat constructor.
Qed.

Lemma goroutine_length (env : Env) (flags : Flags) (binaryFile root : gostring)
    (workspace : Workspace) (resources : list WorkspaceResource) :
  length (flat_map (resourceStanzas env flags binaryFile root workspace) resources)
  = startAgents resources.
Proof.
  unfold startAgents.
  induction resources as [|resource resources IH]; [done|].
  cbn [flat_map map sum_list]. rewrite length_app, IH. f_equal.
  unfold resourceStanzas.
  destruct (decide (Transition resource = WorkspaceTransitionStart)) as [Hs|Hs].
  - rewrite bool_decide_eq_false_2 by (by intros ?).
    rewrite bool_decide_eq_true_2 by done. apply length_map.
  - rewrite bool_decide_eq_true_2 by done.
    by rewrite bool_decide_eq_false_2 by done.
Qed.

(** X11.  A goroutine whose resources were fetched appends one stanza for
    each agent of the resources in the start transition and no other:
    their number is the number of those agents, and it appends nothing
    exactly when there is no such agent. *)
Theorem goroutine_one_stanza_per_agent (env : Env) (flags : Flags) (client : Client)
    (binaryFile root : gostring) (workspace : Workspace)
    (resources : list WorkspaceResource) :
  TemplateVersionResources client (LatestBuild_TemplateVersionID workspace) = Ok resources ->
  exists appends,
    goroutine env flags client binaryFile root workspace = Ok appends /\
    length appends = startAgents resources /\
    (appends = [] <-> startAgents resources = 0%nat).
Proof.
  intros Hres. unfold goroutine. rewrite Hres.
  eexists. split; [reflexivity|].
  pose proof (goroutine_length env flags binaryFile root workspace resources) as Hlen.
  split; [exact Hlen|].
  rewrite <- Hlen. split; [by intros -> | apply nil_length_inv].
Qed.

Lemma goroutine_one_stanza_per_agent_witness :
  let resources :=
    [ startResource [str "main"; str "db"];
      {| Transition := str "stop"; Agents := [ {| AgentName := str "old" |} ] |};
      startResource [str "gpu"] ] in
  let client := tableClient [dev] (fun _ => Ok resources) in
  exists appends,
    goroutine (exampleEnv client) (exampleFlags [] false) client (str "coder")
              (str "/home/u/.coder") dev = Ok appends /\
    length appends = startAgents resources /\
    (appends = [] <-> startAgents resources = 0%nat).
Proof.
  intros resources client.
  apply (goroutine_one_stanza_per_agent (exampleEnv client) (exampleFlags [] false) client
           (str "coder") (str "/home/u/.coder") dev resources).
  reflexivity.
Defined.

Lemma errGroup_nothing (schedule : list nat) (tasks : list (result (list gostring)))
    (buffer : gostring) (err : option error) :
  Forall (fun task => appendsOf task = []) tasks ->
  (errGroup schedule tasks buffer err).1 = buffer.
Proof.
  revert tasks buffer err; induction schedule as [|i schedule IH];
    intros tasks buffer err Hnone.
  - rewrite drain_appends.
    assert (allAppends tasks = []) as ->; [|by rewrite app_nil_r].
    unfold allAppends. induction Hnone as [|task tasks Htask _ IHtasks]; [done|].
    simpl. by rewrite Htask, IHtasks.
  - cbn [errGroup]. destruct (tasks !! i) as [[[|text appends]|e]|] eqn:Hi;
      try (by apply IH).
    + exfalso. apply (Forall_lookup_1 _ _ _ _ Hnone) in Hi. discriminate Hi.
    + apply IH. apply Forall_insert; done.
Qed.

(** X12.  When no workspace has an agent in a resource in the start
    transition, a run that returns [nil] has still rewritten the config
    file: it holds what the removal left of the old text and a block with
    the header and no stanza. *)
Theorem RunE_no_agents {FS : Type} `{FileSystem FS} (env : Env) (flags : Flags)
    (schedule : list nat) (fs : FS) (client : Client) (organization : Organization)
    (workspaces : list Workspace) (binaryFile prefix : gostring) :
  createClient env = Ok client ->
  currentOrganization env client = Ok organization ->
  WorkspacesByOwner client (ID organization) = Ok workspaces ->
  currentBinPath env = Ok binaryFile ->
  excise (ReadFile (configPath env flags) fs).1 = Some prefix ->
  (forall workspace, workspace ∈ workspaces ->
     exists resources,
       TemplateVersionResources client (LatestBuild_TemplateVersionID workspace)
       = Ok resources /\
       startAgents resources = 0%nat) ->
  (RunE env flags schedule fs).1 = Returned None ->
  ReadFile (configPath env flags) (RunE env flags schedule fs).2
  = (prefix ++ header ++ nl ++ sshEndToken, None).
Proof.
  intros Hclient Horg Hws Hbin Hex Hnone Hrun.
  rewrite (RunE_written env flags schedule fs client organization workspaces binaryFile prefix)
    by done.
  assert (stanzasText env flags client binaryFile workspaces schedule = []) as ->; [|done].
  unfold stanzasText, tasksOf. apply errGroup_nothing.
  apply Forall_fmap, Forall_forall. intros workspace Hin.
  destruct (Hnone workspace Hin) as [resources [Hres Hzero]].
  unfold compose, goroutine. rewrite Hres. cbn [appendsOf].
  apply nil_length_inv. by rewrite goroutine_length.
Qed.

Lemma RunE_no_agents_witness :
  let client := tableClient [dev; web]
                  (fun _ => Ok [ {| Transition := str "stop";
                                    Agents := [ {| AgentName := str "main" |} ] |} ]) in
  let env := exampleEnv client in
  let flags := exampleFlags [] false in
  let fs := fileFS (str "/home/u/.ssh/config") (str "Host x" ++ nl) in
  ReadFile (configPath env flags) (RunE env flags [1; 0]%nat fs).2
  = ((str "Host x" ++ nl) ++ header ++ nl ++ sshEndToken, None).
Proof.
  intros client env flags fs.
  apply (RunE_no_agents env flags [1; 0]%nat fs client {| ID := 7%N |} [dev; web]
           (str "/usr/local/bin/coder") (str "Host x" ++ nl));
    try reflexivity.
  intros workspace _. eexists. split; reflexivity.
Defined.

(** ** The path of the binary (lines 150-189) *)

(** X13.  [currentBinPath] fails exactly when [os.Executable] fails, with
    that error behind [get executable path: ] and without a warning.
    Otherwise it returns the full path of the executable when the lookup
    in [$PATH] failed on Windows, and the base name of the executable in
    every other case, also when the lookup failed on another system or
    found another file; it never prints more than one warning. *)
Theorem currentBinPath_result (proc : BinPath.Process) :
  match BinPath.os_Executable proc with
  | Err e => BinPath.currentBinPath proc = (Err (str "get executable path: " ++ e), [])
  | Ok exePath =>
      let binName := BinPath.filepath_Base proc exePath in
      exists warnings,
        (length warnings <= 1)%nat /\
        BinPath.currentBinPath proc
        = (Ok (if bool_decide ((BinPath.safeexec_LookPath proc binName).2 <> None
                               /\ BinPath.runtime_GOOS proc = str "windows")
               then exePath else binName), warnings)
  end.
Proof.
  unfold BinPath.currentBinPath.
  destruct (BinPath.os_Executable proc) as [exePath|e]; [|done].
  cbv zeta. set (binName := BinPath.filepath_Base proc exePath).
  destruct (BinPath.safeexec_LookPath proc binName) as [pathPath err]. cbn [snd].
  repeat case_bool_decide; cbn [andb];
    try (eexists; split; [|reflexivity]; simpl; lia);
    exfalso; tauto.
Qed.

(** X14.  When [currentBinPath] returns a name and prints no warning, the
    name is the base name of the executable, and what [$PATH] gives for
    that name is, once cleaned, the cleaned path of the executable; on
    Windows the lookup then succeeded. *)
Theorem currentBinPath_silent (proc : BinPath.Process) (name : gostring) :
  BinPath.currentBinPath proc = (Ok name, []) ->
  exists exePath,
    BinPath.os_Executable proc = Ok exePath /\
    name = BinPath.filepath_Base proc exePath /\
    BinPath.filepath_Clean proc (BinPath.safeexec_LookPath proc name).1
      = BinPath.filepath_Clean proc exePath /\
    (BinPath.runtime_GOOS proc = str "windows" ->
     (BinPath.safeexec_LookPath proc name).2 = None).
Proof.
  unfold BinPath.currentBinPath.
  destruct (BinPath.os_Executable proc) as [exePath|e]; [|done].
  destruct (BinPath.safeexec_LookPath proc (BinPath.filepath_Base proc exePath))
    as [pathPath err] eqn:Hlook.
  destruct (bool_decide (err <> None) && bool_decide (_ = str "windows")) eqn:Hwin;
    [discriminate|].
  destruct (bool_decide (BinPath.filepath_Clean proc pathPath
                         <> BinPath.filepath_Clean proc exePath)) eqn:Hclean;
    [discriminate|].
  intros [= <-]. exists exePath. rewrite Hlook. cbn [fst snd].
  split; [done|]. split; [done|]. split.
  - apply bool_decide_eq_false in Hclean.
    destruct (decide (BinPath.filepath_Clean proc pathPath
                      = BinPath.filepath_Clean proc exePath)); [done|]. by destruct Hclean.
  - intros Hos. rewrite (bool_decide_eq_true_2 _ Hos), andb_true_r in Hwin.
    apply bool_decide_eq_false in Hwin.
    destruct err; [|done]. by destruct Hwin.
Qed.

Lemma currentBinPath_silent_witness :
  exists exePath,
    BinPath.os_Executable (BinPath.exampleProcess (str "linux") (str "/usr/local/bin") true)
      = Ok exePath /\
    str "coder"
      = BinPath.filepath_Base (BinPath.exampleProcess (str "linux") (str "/usr/local/bin") true)
          exePath.
Proof.
  destruct (currentBinPath_silent
              (BinPath.exampleProcess (str "linux") (str "/usr/local/bin") true)
              (str "coder") eq_refl) as (exePath & Hexe & Hname & _).
  by exists exePath.
Defined.
